(** * OS.js build orchestration ([src/build/index.js])

    A shallow embedding of the task registry, the target resolver
    ([_getTargets]), the task-chain runner ([_eachTask]) and the exported
    entry points ([build], [config], [generate]), together with the
    properties of them that the specification states.

    Conventions of the embedding.
    - A JavaScript string is a [string]: a sequence of code units in the
      range U+0000..U+00FF.  The white space of [String.prototype.trim] and
      of the regular expression [\s] is, within that range, the code units
      9 to 13, 32 and 160.
    - [undefined] for an optional string is [None].
    - A promise is represented by the way it settles ([settled]): resolved
      with a value, rejected with a reason, or never settled.  A call that
      may also throw synchronously returns a [completion].
    - Effects are recorded in a trace of events.  A computation reads the
      events that happened before it (so that a collaborator may answer
      differently on its second call) and returns the events it adds.
    - The collaborator modules ([_config], [_core], [_themes], [_manifest],
      [_packages], [_generate], [_fs]) are parameters ([World]); their
      functions return promises, as their callers expect.  [_utils.eachp] is
      defined from the specification.
    - An object is the table of its own properties: what a lookup would find
      on [Object.prototype] is outside the embedding. *)

From Stdlib Require Import List String Ascii Bool Arith Lia.
Import ListNotations.
Local Open Scope string_scope.
Local Open Scope list_scope.

Set Implicit Arguments.
Set Warnings "-register-all,-notation-for-abbreviation".

(** ** JavaScript string and array primitives used by the source *)

Module JS.

(** Code units matched by [\s] and stripped by [trim]. *)
Definition is_space (c : ascii) : bool :=
  let n := nat_of_ascii c in
  (((9 <=? n) && (n <=? 13)) || (n =? 32) || (n =? 160))%nat.

(** [s.split(sep)] for a one-character separator: never an empty array. *)
Fixpoint split (sep : ascii) (s : string) : list string :=
  match s with
  | EmptyString => [EmptyString]
  | String c r =>
      if Ascii.eqb c sep then EmptyString :: split sep r
      else match split sep r with
           | h :: t => String c h :: t
           | [] => [String c EmptyString]
           end
  end.

(** [a.join(sep)]. *)
Fixpoint join (sep : string) (a : list string) : string :=
  match a with
  | [] => EmptyString
  | [x] => x
  | x :: r => x ++ sep ++ join sep r
  end.

Fixpoint trimStart (s : string) : string :=
  match s with
  | EmptyString => EmptyString
  | String c r => if is_space c then trimStart r else s
  end.

Fixpoint trimEnd (s : string) : string :=
  match s with
  | EmptyString => EmptyString
  | String c r =>
      match trimEnd r with
      | EmptyString => if is_space c then EmptyString else String c EmptyString
      | r' => String c r'
      end
  end.

(** [s.trim()]. *)
Definition trim (s : string) : string := trimEnd (trimStart s).

(** [s.replace(/\s/, '')]: the regular expression has no [g] flag, so only
    the first match is replaced. *)
Fixpoint replace_first_space (s : string) : string :=
  match s with
  | EmptyString => EmptyString
  | String c r => if is_space c then r else String c (replace_first_space r)
  end.

(** [s.replace(c, d)] with a one-character string pattern: the first
    occurrence only. *)
Fixpoint replace_first (c d : ascii) (s : string) : string :=
  match s with
  | EmptyString => EmptyString
  | String x r =>
      if Ascii.eqb x c then String d r else String x (replace_first c d r)
  end.

(** [s.indexOf(c) !== -1] for a one-character string [c]. *)
Fixpoint includes_char (c : ascii) (s : string) : bool :=
  match s with
  | EmptyString => false
  | String x r => Ascii.eqb x c || includes_char c r
  end.

(** [a.indexOf(v) !== -1] on an array of strings (strict equality). *)
Definition includes (a : list string) (v : string) : bool :=
  existsb (String.eqb v) a.

(** Truthiness of a string: every string but the empty one. *)
Definition truthy_string (s : string) : bool :=
  match s with EmptyString => false | _ => true end.

(** Truthiness of [string | undefined]. *)
Definition truthy (o : option string) : bool :=
  match o with Some s => truthy_string s | None => false end.

End JS.

(** ** The command-line accessor

    [cli.option(name)] yields a string or [undefined]; the two-argument form
    [cli.option(name, default)] yields a string. *)

Record Cli : Type := mkCli {
  option_ : string -> option string;
  option_default : string -> string -> string
}.

(** ** TargetResolver: [_getTargets] *)

(** The callback of [map]: [null] is [None]. *)
Definition target_entry (defaults : list string) (strict : bool) (iter : string)
  : option string :=
  let val := JS.trim iter in
  if strict then (if negb (JS.includes defaults val) then None else Some val)
  else Some val.

(** The callback of [filter]: [!!iter], false on [null] and on the empty
    string. *)
Definition target_kept (iter : option string) : bool := JS.truthy iter.

Fixpoint values (l : list (option string)) : list string :=
  match l with
  | [] => []
  | Some v :: r => v :: values r
  | None :: r => values r
  end.

Definition _getTargets (cli : Cli) (defaults : list string) (strict : bool)
  : list string :=
  let target := option_ cli "target" in
  let result :=
    match target with
    | Some t =>
        if JS.truthy_string t
        then values (filter target_kept
                       (map (target_entry defaults strict) (JS.split ","%char t)))
        else defaults
    | None => defaults
    end in
  if strict then (match result with [] => defaults | _ => result end)
  else result.


(** ** Objects

    A JavaScript object used as a table is the list of its own enumerable
    properties in the order in which [Object.keys] enumerates them; its keys
    are pairwise distinct ([obj_wf]).  [obj_set] is the assignment [o[k] = v]
    for a key that is not an array index: an existing key keeps its place, a
    new key goes last.  [obj_get] reads an own property. *)

Module Obj.
Section Table.
Variable A : Type.

Definition t := list (string * A).

Definition keys (o : t) : list string := map fst o.

Fixpoint get (o : t) (k : string) : option A :=
  match o with
  | [] => None
  | (k', v) :: r => if String.eqb k' k then Some v else get r k
  end.

Fixpoint set (o : t) (k : string) (v : A) : t :=
  match o with
  | [] => [(k, v)]
  | (k', v') :: r =>
      if String.eqb k' k then (k', v) :: r else (k', v') :: set r k v
  end.

Definition wf (o : t) : Prop := NoDup (keys o).
End Table.
End Obj.

(** ** Promises, failures and effects *)

Section Model.

(** The configuration context, the values that collaborators produce, the
    failures that they report and the effects of plugin code are opaque. *)
Variables (Cfg Val Err Ext : Type).

Inductive value : Type :=
| Undefined
| Opaque (v : Val)
| Array (l : list value).

(** What a promise is rejected with, or what is thrown. *)
Inductive reason : Type :=
| Message (s : string)          (* a string, as in [Promise.reject('...')] *)
| ErrorObject (msg : string)    (* [new Error(msg)] *)
| Failure (e : Err).            (* a failure reported by a collaborator *)

Inductive settled (A : Type) : Type :=
| Resolved (a : A)
| Rejected (r : reason)
| Pending.

Inductive completion (A : Type) : Type :=
| Returned (p : settled A)
| Threw (r : reason).

Arguments Rejected {A} r.
Arguments Pending {A}.
Arguments Threw {A} r.

(** Calls to the collaborator modules, with the arguments that the source
    passes besides [cli] and [cfg]. *)
Inductive call : Type :=
| writeConfiguration (target : string)
| buildFiles (target : string)
| buildStyle (v : string)
| buildIcon (v : string)
| buildStatic (v : string)
| buildFonts (v : string)
| buildAll
| writeManifest (target : string)
| buildPackage (target name : string)
| buildPackages (target : string)
| config_set (name value import : option string)
| config_get (name : option string)
| addMount (name description path transport ro : option string)
| addPreload (name path type : option string)
| addRepository (name : option string)
| addOverlayFile (kind : string) (path : option string) (overlay : string)
| removeRepository (name : option string)
| enablePackage (name : option string)
| disablePackage (name : option string)
| listPackages.

(** What a task handler does. *)
Inductive effect : Type :=
| Call (c : call)
| LoggerLog (v : value)
| WriteFileSync (out data : string)
| External (x : Ext).

(** What an invocation of an entry point does. *)
Inductive event : Type :=
| GetConfiguration
| Running (taskName iter : string)
| LogResult (v : value)
| Task (e : effect).

(** A computation reads the events so far and returns the ones it adds. *)
Definition M (E A : Type) : Type := list event -> list E * A.

(** How the events added by a computation extend the trace. *)
Class Inject (E : Type) : Type := { inject : list E -> list event }.
#[global] Instance Inject_effect : Inject effect := {| inject := map Task |}.
#[global] Instance Inject_event : Inject event := {| inject := fun t => t |}.

Definition ret {E A} (a : A) : M E A := fun _ => ([], a).

Definition bind {E A B} `{Inject E} (m : M E A) (f : A -> M E B) : M E B :=
  fun h =>
    let (t1, a) := m h in
    let (t2, b) := f a (h ++ inject t1) in
    (t1 ++ t2, b).

Definition emit {E} (e : E) : M E unit := fun _ => ([e], tt).

(** A handler's effects as events of the invocation. *)
Definition lift {A} (m : M effect A) : M event A :=
  fun h => let (t, a) := m h in (map Task t, a).

Notation "x <- m ;; k" := (bind m (fun x => k))
  (at level 100, m at next level, right associativity).
Notation "m ;;; k" := (bind m (fun _ => k))
  (at level 100, right associativity).

Fixpoint mapM {E A B} `{Inject E} (f : A -> M E B) (l : list A)
  : M E (list B) :=
  match l with
  | [] => ret []
  | a :: r => b <- f a ;; bs <- mapM f r ;; ret (b :: bs)
  end.

(** [Promise.all]: rejected as soon as one member is rejected, resolved
    with the array of the values when every member is resolved.  When
    several members are rejected the embedding takes the first one in the
    array (in JavaScript: the first one in time). *)
Fixpoint first_rejected (l : list (settled value)) : option reason :=
  match l with
  | [] => None
  | Rejected r :: _ => Some r
  | _ :: t => first_rejected t
  end.

Fixpoint all_resolved (l : list (settled value)) : option (list value) :=
  match l with
  | [] => Some []
  | Resolved v :: t => option_map (cons v) (all_resolved t)
  | _ :: _ => None
  end.

Definition Promise_all (l : list (settled value)) : settled value :=
  match first_rejected l with
  | Some r => Rejected r
  | None => match all_resolved l with
            | Some vs => Resolved (Array vs)
            | None => Pending
            end
  end.

(** Modelled from the spec: [_utils.eachp] ([src/build/utils.js] is not
    among the sources).  The functions of the list are called in order,
    each one only after the promise of the previous one is resolved; the
    first failure (a rejected promise or a thrown exception) ends the
    iteration and is the failure of the result; a promise that never
    settles stops the iteration; on success the result is resolved with
    the values in order. *)
Fixpoint eachp_from {E} `{Inject E} (acc : list value)
    (list_ : list (M E (completion value))) : M E (settled value) :=
  match list_ with
  | [] => ret (Resolved (Array (rev acc)))
  | f :: rest =>
      c <- f ;;
      match c with
      | Threw r => ret (Rejected r)
      | Returned (Rejected r) => ret (Rejected r)
      | Returned Pending => ret Pending
      | Returned (Resolved v) => eachp_from (v :: acc) rest
      end
  end.

Definition eachp {E} `{Inject E} (list_ : list (M E (completion value)))
  : M E (settled value) :=
  eachp_from [] list_.


(** ** The collaborators

    Everything that the source calls in other modules.  Each answer may
    depend on the events so far. *)

Definition Handler : Type := Cli -> Cfg -> M effect (completion value).

Record World : Type := mkWorld {
  (* [_config.getConfiguration()] *)
  getConfiguration : list event -> completion Cfg;
  (* the promise returned by a call to [_config], [_core], [_themes],
     [_manifest] or [_packages] *)
  collaborator : Cli -> Cfg -> call -> list event -> settled value;
  (* [_generate[task]] *)
  _generate : string -> option Handler;
  (* [_fs.writeFileSync(out, data)]: [Some r] when it throws [r] *)
  writeFileSync : string -> string -> list event -> option reason;
  (* [String(arg)] *)
  String_ : value -> string
}.

Variable world : World.

Definition perform (cli : Cli) (cfg : Cfg) (c : call) : M effect (settled value) :=
  fun h => ([Call c], collaborator world cli cfg c h).

(** A handler that returns the promise of one collaborator call. *)
Definition delegate (cli : Cli) (cfg : Cfg) (c : call) : M effect (completion value) :=
  p <- perform cli cfg c ;; ret (Returned p).

(** [Promise.all(list.map((x) => call(x)))]. *)
Definition all_of (cli : Cli) (cfg : Cfg) (list_ : list call)
  : M effect (completion value) :=
  ps <- mapM (perform cli cfg) list_ ;; ret (Returned (Promise_all ps)).

(** [a || b] on [string | undefined]. *)
Definition or_else (a b : option string) : option string :=
  if JS.truthy a then a else b.

(** ** The static task table [TASKS] *)

Definition TASKS_build_config : Handler := fun cli cfg =>
  let list_ := _getTargets cli ["client"; "server"] true in
  all_of cli cfg (map writeConfiguration list_).

Definition TASKS_build_core : Handler := fun cli cfg =>
  let list_ := _getTargets cli ["dist"; "dist-dev"] false in
  all_of cli cfg (map buildFiles list_).

(** The entries of [targets] whose option is truthy, each with the call that
    [iter[1](cli, cfg, iter[0])] makes. *)
Definition theme_selected (targets : list (option string * (string -> call)))
  : list call :=
  flat_map (fun iter =>
              match fst iter with
              | Some v => if JS.truthy_string v then [snd iter v] else []
              | None => []
              end) targets.

Definition TASKS_build_theme : Handler := fun cli cfg =>
  let targets :=
    [ (option_ cli "style", buildStyle);
      (option_ cli "icons", buildIcon);
      (option_ cli "static", buildStatic);
      (option_ cli "fonts", buildFonts) ] in
  all_of cli cfg (theme_selected targets).

Definition TASKS_build_themes : Handler := fun cli cfg =>
  delegate cli cfg buildAll.

Definition TASKS_build_manifest : Handler := fun cli cfg =>
  let list_ := _getTargets cli ["dist"; "dist-dev"] false in
  let list_ := list_ ++ ["server"] in
  all_of cli cfg (map writeManifest list_).

Definition TASKS_build_package : Handler := fun cli cfg =>
  let list_ := _getTargets cli ["dist"; "dist-dev"] false in
  let name := option_ cli "name" in
  match name with
  | None => ret (Threw (ErrorObject "Invalid package name"))
  | Some n =>
      if negb (JS.truthy_string n) || negb (JS.includes_char "/" n)
      then ret (Threw (ErrorObject "Invalid package name"))
      else all_of cli cfg (map (fun target => buildPackage target n) list_)
  end.

Definition TASKS_build_packages : Handler := fun cli cfg =>
  let list_ := _getTargets cli ["dist"; "dist-dev"] false in
  p <- eachp (map (fun target => delegate cli cfg (buildPackages target)) list_) ;;
  ret (Returned p).

Definition TASKS_build : Obj.t Handler :=
  [ ("config", TASKS_build_config);
    ("core", TASKS_build_core);
    ("theme", TASKS_build_theme);
    ("themes", TASKS_build_themes);
    ("manifest", TASKS_build_manifest);
    ("package", TASKS_build_package);
    ("packages", TASKS_build_packages) ].

Definition TASKS_config : Obj.t Handler :=
  [ ("set", fun cli cfg =>
       delegate cli cfg
         (config_set (option_ cli "name") (option_ cli "value") (option_ cli "import")));
    ("get", fun cli cfg => delegate cli cfg (config_get (option_ cli "name")));
    ("add_mount", fun cli cfg =>
       delegate cli cfg
         (addMount (option_ cli "name")
            (or_else (option_ cli "description") (option_ cli "desc"))
            (option_ cli "path") (option_ cli "transport") (option_ cli "ro")));
    ("add_preload", fun cli cfg =>
       delegate cli cfg
         (addPreload (option_ cli "name") (option_ cli "path") (option_ cli "type")));
    ("add_repository", fun cli cfg =>
       delegate cli cfg (addRepository (option_ cli "name")));
    ("add_script", fun cli cfg =>
       delegate cli cfg
         (addOverlayFile "javascript" (option_ cli "path")
            (option_default cli "overlay" "custom")));
    ("add_style", fun cli cfg =>
       delegate cli cfg
         (addOverlayFile "stylesheets" (option_ cli "path")
            (option_default cli "overlay" "custom")));
    ("add_locale", fun cli cfg =>
       delegate cli cfg
         (addOverlayFile "locales" (option_ cli "path")
            (option_default cli "overlay" "custom")));
    ("remove_repository", fun cli cfg =>
       delegate cli cfg (removeRepository (option_ cli "name")));
    ("enable_package", fun cli cfg =>
       delegate cli cfg (enablePackage (option_ cli "name")));
    ("disable_package", fun cli cfg =>
       delegate cli cfg (disablePackage (option_ cli "name")));
    ("list_packages", fun cli cfg => delegate cli cfg listPackages) ].

(** [TASKS.generate]: the body runs inside the executor of [new Promise], so
    an exception thrown by the generator, or by [writeFileSync] in the
    callback of [then] (which is followed by [catch(reject)]), rejects. *)
Definition TASKS_generate (cli : Cli) (cfg : Cfg) (task : string)
  : M effect (completion value) :=
  match _generate world task with
  | Some g =>
      c <- g cli cfg ;;
      match c with
      | Threw r => ret (Returned (Rejected r))
      | Returned (Rejected r) => ret (Returned (Rejected r))
      | Returned Pending => ret (Returned Pending)
      | Returned (Resolved arg) =>
          let out := option_ cli "out" in
          match out with
          | Some o =>
              if JS.truthy_string o then
                fun h =>
                  ([WriteFileSync o (String_ world arg)],
                   match writeFileSync world o (String_ world arg) h with
                   | Some r => Returned (Rejected r)
                   | None => Returned (Resolved Undefined)
                   end)
              else emit (LoggerLog arg) ;;; ret (Returned (Resolved Undefined))
          | None => emit (LoggerLog arg) ;;; ret (Returned (Resolved Undefined))
          end
      end
  | None => ret (Returned (Rejected (Message ("Invalid generator: " ++ task))))
  end.

(** The registry: the two namespaces that are objects and the one that is a
    function.  Plugins may replace any of them. *)
Record Tasks : Type := mkTasks {
  tasks_build : Obj.t Handler;
  tasks_config : Obj.t Handler;
  tasks_generate : Cli -> Cfg -> string -> M effect (completion value)
}.

Definition TASKS : Tasks := mkTasks TASKS_build TASKS_config TASKS_generate.

(** [ORIGINAL_TASKS.build]: the keys of [TASKS.build] when the module is
    loaded, before any plugin is registered. *)
Definition ORIGINAL_TASKS_build : list string := Obj.keys (tasks_build TASKS).

(** [_init]: every module found registers itself on the table. *)
Definition _init (modules : list (Tasks -> Tasks)) (T : Tasks) : Tasks :=
  fold_left (fun T register => register T) modules T.

(** ** TaskChainRunner: [_eachTask] *)

(** The fourth argument of [_eachTask]: a function ([TASKS.generate]) or an
    object ([TASKS.build]). *)
Inductive Namespace : Type :=
| NsFunction (f : Cli -> Cfg -> string -> M effect (completion value))
| NsObject (o : Obj.t Handler).

(** [_config.getConfiguration()] as an event of the invocation. *)
Definition load_configuration : M event (completion Cfg) :=
  fun h => ([GetConfiguration], getConfiguration world h).

(** The name that is looked up: [(iter || '').replace('-', '_')]. *)
Definition task_name (iter : string) : string :=
  JS.replace_first "-"%char "_"%char iter.

(** The entries of the list: [args.replace(/\s/, '').split(',')]. *)
Definition task_entries (args : string) : list string :=
  JS.split ","%char (JS.replace_first_space args).

(** The function that [_eachTask] builds for one entry of the list. *)
Definition task_step (cli : Cli) (cfg : Cfg) (taskName : string)
    (namespace : Namespace) (iter : string) : M event (completion value) :=
  let iter := task_name iter in
  match namespace with
  | NsFunction f => lift (f cli cfg iter)
  | NsObject o =>
      match Obj.get o iter with
      | Some handler =>
          emit (Running taskName iter) ;;; lift (handler cli cfg)
      | None => ret (Returned (Rejected (Message ("Invalid task: " ++ iter))))
      end
  end.

(** The call of [_utils.eachp] on the functions built for the entries. *)
Definition run_chain (cli : Cli) (cfg : Cfg) (taskName : string)
    (namespace : Namespace) (entries : list string) : M event (settled value) :=
  eachp (map (task_step cli cfg taskName namespace) entries).

Definition _eachTask (cli : Cli) (args : option string) (taskName : string)
    (namespace : Namespace) : M event (settled value) :=
  match args with
  | None => ret (Rejected (Message "Not enough arguments"))
  | Some a =>
      if negb (JS.truthy_string a)
      then ret (Rejected (Message "Not enough arguments"))
      else
        c <- load_configuration ;;
        match c with
        | Threw r => ret (Rejected r)
        | Returned (Rejected r) => ret (Rejected r)
        | Returned Pending => ret Pending
        | Returned (Resolved cfg) =>
            run_chain cli cfg taskName namespace (task_entries a)
        end
  end.

(** ** The exported entry points *)

(** The array that [build] joins when it is called without task names. *)
Definition default_stages (T : Tasks) : list string :=
  let args := ["config"; "core"; "themes"; "manifest"; "packages"] in
  args ++ filter (fun i => negb (JS.includes ORIGINAL_TASKS_build i)
                           && negb (JS.includes args i))
                 (Obj.keys (tasks_build T)).

Definition exports_build (T : Tasks) (cli : Cli) (args : option string)
  : M event (settled value) :=
  let args :=
    if negb (JS.truthy args) then Some (JS.join "," (default_stages T))
    else args in
  _eachTask cli args "build" (NsObject (tasks_build T)).

(** [config]: the promise of [getConfiguration()] gets a [then] and no
    [catch], so its rejection, and an exception thrown by the handler in the
    callback, leave the returned promise unsettled; an exception thrown by
    [getConfiguration] itself is thrown inside the executor and rejects. *)
Definition exports_config (T : Tasks) (cli : Cli) (arg : option string)
  : M event (settled value) :=
  let arg :=
    JS.replace_first "-"%char "_"%char
      (match arg with Some a => a | None => "" end) in
  match Obj.get (tasks_config T) arg with
  | Some handler =>
      c <- load_configuration ;;
      match c with
      | Threw r => ret (Rejected r)
      | Returned (Rejected _) => ret Pending
      | Returned Pending => ret Pending
      | Returned (Resolved cfg) =>
          hc <- lift (handler cli cfg) ;;
          match hc with
          | Threw _ => ret Pending
          | Returned (Rejected r) => ret (Rejected r)
          | Returned Pending => ret Pending
          | Returned (Resolved v) =>
              match v with
              | Undefined => ret (Resolved Undefined)
              | _ => emit (LogResult v) ;;; ret (Resolved Undefined)
              end
          end
      end
  | None => ret (Rejected (Message ("Invalid action: " ++ arg)))
  end.

Definition exports_generate (T : Tasks) (cli : Cli) (args : option string)
  : M event (settled value) :=
  _eachTask cli args "generate" (NsFunction (tasks_generate T)).

(** ** Reading a trace *)

Definition is_GetConfiguration (e : event) : bool :=
  match e with GetConfiguration => true | _ => false end.

(** How many times the entry point loaded the configuration (what a
    handler does is kept apart, in [Task] events). *)
Definition loads (t : list event) : nat :=
  List.length (filter is_GetConfiguration t).

(** The tasks that were started, in order. *)
Fixpoint started (t : list event) : list string :=
  match t with
  | [] => []
  | Running _ iter :: r => iter :: started r
  | _ :: r => started r
  end.

(** The collaborator calls that were made, in order. *)
Fixpoint calls (t : list effect) : list call :=
  match t with
  | [] => []
  | Call c :: r => c :: calls r
  | _ :: r => calls r
  end.

End Model.

Arguments Undefined {Val}.
Arguments Opaque {Val} v.
Arguments Array {Val} l.
Arguments Message {Err} s.
Arguments ErrorObject {Err} msg.
Arguments Failure {Err} e.
Arguments Resolved {Err A} a.
Arguments Rejected {Err A} r.
Arguments Pending {Err A}.
Arguments Returned {Err A} p.
Arguments Threw {Err A} r.
Arguments Call {Val Ext} c.
Arguments LoggerLog {Val Ext} v.
Arguments WriteFileSync {Val Ext} out data.
Arguments External {Val Ext} x.
Arguments GetConfiguration {Val Ext}.
Arguments Running {Val Ext} taskName iter.
Arguments LogResult {Val Ext} v.
Arguments Task {Val Ext} e.

(** ** The words of the specification *)

(** The comma-separated entries of an option value: trimmed, blanks
    dropped. *)
Definition trimmed_entries (optionValue : string) : list string :=
  filter JS.truthy_string (map JS.trim (JS.split ","%char optionValue)).

(** The test that strict mode adds to the one of [filter]. *)
Definition allowed (defaults : list string) (strict : bool) (v : string) : bool :=
  if strict then JS.includes defaults v else true.

(** A failed call: a rejected promise or a thrown exception. *)
Definition failure_of {Err A : Type} (c : completion Err A) : option (reason Err) :=
  match c with
  | Threw r => Some r
  | Returned (Rejected r) => Some r
  | Returned _ => None
  end.

Fixpoint has_space (s : string) : bool :=
  match s with
  | EmptyString => false
  | String c r => JS.is_space c || has_space r
  end.

(** ** Concrete command lines, collaborators and plugins *)

Definition cli_of (l : list (string * string)) : Cli :=
  mkCli (fun k => option_map snd (find (fun p => String.eqb (fst p) k) l))
        (fun k d => match find (fun p => String.eqb (fst p) k) l with
                    | Some p => snd p
                    | None => d
                    end).

(** Every collaborator succeeds. *)
Definition calm_world : World unit unit string Empty_set :=
  mkWorld (fun _ => Returned (Resolved tt))
          (fun _ _ _ _ => Resolved Undefined)
          (fun _ => None)
          (fun _ _ _ => None)
          (fun _ => "").

(** The configuration cannot be loaded. *)
Definition unconfigured_world : World unit unit string Empty_set :=
  mkWorld (fun _ => Returned (Rejected (Failure "ENOENT")))
          (fun _ _ _ _ => Resolved Undefined)
          (fun _ => None)
          (fun _ _ _ => None)
          (fun _ => "").

(** [_core.buildFiles] fails; everything else succeeds. *)
Definition core_fails_world : World unit unit string Empty_set :=
  mkWorld (fun _ => Returned (Resolved tt))
          (fun _ _ c _ => match c with
                          | buildFiles _ => Rejected (Failure "core failed")
                          | _ => Resolved Undefined
                          end)
          (fun _ => None)
          (fun _ _ _ => None)
          (fun _ => "").

(** A plugin module whose [register] adds the task [build.lint]. *)
Definition lint_module (T : Tasks unit unit string Empty_set)
  : Tasks unit unit string Empty_set :=
  mkTasks (Obj.set (tasks_build T) "lint"
                   (fun _ _ => ret (Returned (Resolved Undefined))))
          (tasks_config T) (tasks_generate T).

(** ** The [run] entry point

    [instance.js] and [settings.js] of the server are collaborators:
    [instance.init(opts)] returns a promise, [settings.get()] returns the
    settings (of which [run] reads [tz]) or throws, [instance.run()] returns
    or throws. *)

Record Options : Type := mkOptions {
  PORT : option string;
  LOGLEVEL : option string;
  DIST : string
}.

Section Run.

Variable Err : Type.

Record Server : Type := mkServer {
  (* the promise of [instance.init(opts)] *)
  instance_init : Options -> settled Err unit;
  (* [settings.get().tz], or what [settings.get()] throws *)
  settings_get : sum (reason Err) (option string);
  (* what [instance.run()] throws, if it does *)
  instance_run : option (reason Err)
}.

(** What [run] does to the process. *)
Inductive process_event : Type :=
| InstanceInit (opts : Options)
| SettingsGet
| SetTZ (tz : string)
| OnExit
| InstanceRun
| OnUncaughtException
| LoggerError (r : reason Err)
| ProcessExit (code : nat).

(** The callback of [catch]: [_logger.log(error); process.exit(1)]. *)
Definition startup_failed (r : reason Err) : list process_event :=
  [LoggerError r; ProcessExit 1].

(** The callback of [then], whose exceptions the [catch] that follows it
    receives. *)
Definition startup (server : Server) : list process_event :=
  SettingsGet ::
  match settings_get server with
  | inl r => startup_failed r
  | inr tz =>
      (match tz with
       | Some z => if JS.truthy_string z then [SetTZ z] else []
       | None => []
       end)
      ++ OnExit :: InstanceRun ::
      match instance_run server with
      | Some r => startup_failed r
      | None => [OnUncaughtException]
      end
  end.

(** [run]: the promise it returns has an executor that never calls
    [resolve] or [reject]. *)
Definition exports_run (server : Server) (cli : Cli)
  : list process_event * settled Err unit :=
  let opts :=
    mkOptions (option_ cli "port") (option_ cli "loglevel")
      (match option_ cli "target" with
       | Some t => if JS.truthy_string t then t else "dist-dev"
       | None => "dist-dev"
       end) in
  (InstanceInit opts ::
   match instance_init server opts with
   | Resolved _ => startup server
   | Rejected r => startup_failed r
   | Pending => []
   end,
   Pending).

Definition is_ProcessExit (e : process_event) : bool :=
  match e with ProcessExit _ => true | _ => false end.

Definition is_InstanceRun (e : process_event) : bool :=
  match e with InstanceRun => true | _ => false end.

End Run.

Arguments InstanceInit {Err} opts.
Arguments SettingsGet {Err}.
Arguments SetTZ {Err} tz.
Arguments OnExit {Err}.
Arguments InstanceRun {Err}.
Arguments OnUncaughtException {Err}.
Arguments LoggerError {Err} r.
Arguments ProcessExit {Err} code.

(** ** More words for the statements *)

(** The spelling of a task name with its first underscore as a hyphen. *)
Definition kebab (name : string) : string :=
  JS.replace_first "_"%char "-"%char name.

Fixpoint count_char (c : ascii) (s : string) : nat :=
  match s with
  | EmptyString => 0
  | String x r => (if Ascii.eqb x c then 1 else 0) + count_char c r
  end.

(** A string that does not start with white space. *)
Definition starts_clean (s : string) : bool :=
  match s with
  | EmptyString => true
  | String c _ => negb (JS.is_space c)
  end.

(** The test of the filter in [build]. *)
Definition added_stage {Cfg Val Err Ext : Type} (world : World Cfg Val Err Ext)
    (i : string) : bool :=
  negb (JS.includes (ORIGINAL_TASKS_build world) i)
  && negb (JS.includes ["config"; "core"; "themes"; "manifest"; "packages"] i).


(** The promises of the calls of a fan-out, each at the events before it. *)
Fixpoint answers {Cfg Val Err Ext : Type} (world : World Cfg Val Err Ext)
    (cli : Cli) (cfg : Cfg) (l : list call) (h : list (event Val Ext))
  : list (settled Err (value Val)) :=
  match l with
  | [] => []
  | c :: r =>
      collaborator world cli cfg c h
      :: answers world cli cfg r (h ++ [Task (Call c)])
  end.

(** A generator named [report] that yields a value; everything succeeds. *)
Definition report_world : World unit unit string Empty_set :=
  mkWorld (fun _ => Returned (Resolved tt))
          (fun _ _ _ _ => Resolved Undefined)
          (fun task =>
             if String.eqb task "report"
             then Some (fun _ _ => ret (Returned (Resolved (Opaque tt))))
             else None)
          (fun _ _ _ => None)
          (fun _ => "report text").

(** [_packages.buildPackages] fails; everything else succeeds. *)
Definition packages_fail_world : World unit unit string Empty_set :=
  mkWorld (fun _ => Returned (Resolved tt))
          (fun _ _ c _ => match c with
                          | buildPackages _ => Rejected (Failure "no packages")
                          | _ => Resolved Undefined
                          end)
          (fun _ => None)
          (fun _ _ _ => None)
          (fun _ => "").

(** A server that cannot be initialised, and one that starts. *)
Definition broken_server : Server string :=
  mkServer (fun _ => Rejected (Failure "EADDRINUSE")) (inr None) None.

Definition good_server : Server string :=
  mkServer (fun _ => Resolved tt) (inr (Some "UTC")) None.

(** Pairwise distinct elements of a literal list. *)
Ltac distinct := repeat constructor; simpl; intuition discriminate.

(** * Properties *)

(** ** Strings and arrays *)

Lemma includes_In (a : list string) (v : string) :
  JS.includes a v = true <-> In v a.
Proof.
  unfold JS.includes. rewrite existsb_exists. split.
  - intros [x [Hin Heq]]. apply String.eqb_eq in Heq. now subst.
  - intros Hin. exists v. split; [assumption | apply String.eqb_refl].
Qed.

Lemma includes_not_In (a : list string) (v : string) :
  JS.includes a v = false <-> ~ In v a.
Proof.
  rewrite <- includes_In. destruct (JS.includes a v); split; congruence.
Qed.

Lemma truthy_string_true (s : string) :
  JS.truthy_string s = true <-> s <> "".
Proof. destruct s; simpl; split; congruence. Qed.

(** ** TargetResolver *)

Lemma target_entry_allowed (defaults : list string) (strict : bool) (x : string) :
  target_entry defaults strict x
  = if allowed defaults strict (JS.trim x) then Some (JS.trim x) else None.
Proof.
  unfold target_entry, allowed.
  destruct strict; [destruct (JS.includes defaults (JS.trim x))|]; reflexivity.
Qed.

Lemma resolved_entries (defaults : list string) (strict : bool) (l : list string) :
  values (filter target_kept (map (target_entry defaults strict) l))
  = filter (allowed defaults strict) (filter JS.truthy_string (map JS.trim l)).
Proof.
  induction l as [|x l IH]; [reflexivity|].
  cbn [map filter]. rewrite target_entry_allowed.
  destruct (allowed defaults strict (JS.trim x)) eqn:Ha;
    cbn [target_kept JS.truthy];
    destruct (JS.truthy_string (JS.trim x)) eqn:Ht;
    cbn [values filter]; rewrite ?Ha; rewrite IH; reflexivity.
Qed.

Lemma getTargets_given (cli : Cli) (defaults : list string) (strict : bool) (t : string) :
  option_ cli "target" = Some t -> t <> "" ->
  _getTargets cli defaults strict
  = let result := filter (allowed defaults strict) (trimmed_entries t) in
    if strict then match result with [] => defaults | _ => result end
    else result.
Proof.
  intros Ht Hne. unfold _getTargets. rewrite Ht.
  apply truthy_string_true in Hne. rewrite Hne.
  now rewrite resolved_entries.
Qed.

Lemma getTargets_missing (cli : Cli) (defaults : list string) (strict : bool) :
  JS.truthy (option_ cli "target") = false ->
  _getTargets cli defaults strict = defaults.
Proof.
  intros H. unfold _getTargets.
  destruct (option_ cli "target") as [t|]; simpl in H.
  - rewrite H. destruct strict; [destruct defaults|]; reflexivity.
  - destruct strict; [destruct defaults|]; reflexivity.
Qed.

Lemma trimmed_entries_not_blank (t : string) : ~ In "" (trimmed_entries t).
Proof.
  unfold trimmed_entries. intros H. apply filter_In in H.
  destruct H as [_ H]. discriminate.
Qed.

Lemma filter_allowed_no_blank (defaults : list string) (l : list string) :
  ~ In "" defaults ->
  filter (JS.includes defaults) (filter JS.truthy_string l)
  = filter (JS.includes defaults) l.
Proof.
  intros Hd. induction l as [|x l IH]; [reflexivity|].
  cbn [filter]. destruct (JS.truthy_string x) eqn:Hx; cbn [filter].
  - now rewrite IH.
  - destruct x; [|discriminate].
    apply includes_not_In in Hd. now rewrite Hd.
Qed.

(** C5. In strict mode, for a non-empty defaults list [D] and a non-empty
    option value, the resolver returns the trimmed comma-separated entries
    that occur in [D], in input order (when [D] holds no blank identifier
    these are literally the trimmed pieces that occur in [D]); when none
    occurs in [D] it returns [D]; the result is never empty; an absent or
    empty option value yields [D] unchanged. *)
Theorem C5_strict_resolution (cli : Cli) (D : list string) (HD : D <> []) :
  (forall t, option_ cli "target" = Some t -> t <> "" ->
     let kept := filter (JS.includes D) (trimmed_entries t) in
     (kept <> [] -> _getTargets cli D true = kept)
     /\ (kept = [] -> _getTargets cli D true = D)
     /\ (~ In "" D ->
         kept = filter (JS.includes D) (map JS.trim (JS.split ","%char t))))
  /\ _getTargets cli D true <> []
  /\ (option_ cli "target" = None \/ option_ cli "target" = Some "" ->
      _getTargets cli D true = D).
Proof.
  split; [|split].
  - intros t Ht Hne kept.
    rewrite (getTargets_given cli D true Ht Hne). cbn zeta.
    change (filter (allowed D true) (trimmed_entries t)) with kept.
    repeat split.
    + destruct kept; congruence.
    + intros ->. reflexivity.
    + intros Hb. unfold kept, trimmed_entries.
      now apply filter_allowed_no_blank.
  - destruct (option_ cli "target") as [t|] eqn:Ht.
    + destruct (string_dec t "") as [->|Hne].
      * rewrite getTargets_missing; [assumption | now rewrite Ht].
      * rewrite (getTargets_given cli D true Ht Hne). cbn zeta.
        destruct (filter (allowed D true) (trimmed_entries t)); [assumption | discriminate].
    + rewrite getTargets_missing; [assumption | now rewrite Ht].
  - intros [H|H]; apply getTargets_missing; now rewrite H.
Qed.

(** C2, as amended. The resolver drops blanks, not duplicates: the target
    list has no duplicate entry whenever the defaults have none and the
    trimmed entries of the option value are pairwise distinct. *)
Theorem C2_distinct_entries_stay_distinct
    (cli : Cli) (defaults : list string) (strict : bool)
    (Hd : NoDup defaults)
    (Ht : forall t, option_ cli "target" = Some t -> NoDup (trimmed_entries t)) :
  NoDup (_getTargets cli defaults strict).
Proof.
  destruct (option_ cli "target") as [t|] eqn:E.
  - destruct (string_dec t "") as [->|Hne].
    + rewrite getTargets_missing; [assumption | now rewrite E].
    + rewrite (getTargets_given cli defaults strict E Hne). cbn zeta.
      pose proof (NoDup_filter (allowed defaults strict) (Ht t eq_refl)) as Hf.
      destruct strict; [|exact Hf].
      destruct (filter (allowed defaults true) (trimmed_entries t)); assumption.
  - rewrite getTargets_missing; [assumption | now rewrite E].
Qed.

(** ** Task-name lists *)

Lemma split_not_nil (sep : ascii) (s : string) : JS.split sep s <> [].
Proof.
  destruct s as [|c r]; cbn [JS.split]; [discriminate|].
  destruct (Ascii.eqb c sep); [discriminate|].
  destruct (JS.split sep r); discriminate.
Qed.

Lemma join_cons (sep x : string) (l : list string) :
  l <> [] -> JS.join sep (x :: l) = (x ++ sep ++ JS.join sep l)%string.
Proof. destruct l; [congruence | reflexivity]. Qed.

Lemma join_split (sep : ascii) (s : string) :
  JS.join (String sep "") (JS.split sep s) = s.
Proof.
  induction s as [|c r IH]; [reflexivity|].
  cbn [JS.split]. destruct (Ascii.eqb c sep) eqn:E.
  - apply Ascii.eqb_eq in E. subst c.
    rewrite join_cons by apply split_not_nil. now rewrite IH.
  - pose proof (split_not_nil sep r) as Hne.
    destruct (JS.split sep r) as [|x l]; [congruence|].
    destruct l as [|y l].
    + cbn [JS.join] in *. now rewrite IH.
    + rewrite <- IH. rewrite !join_cons by discriminate. reflexivity.
Qed.

Lemma split_without_separator (sep : ascii) (x : string) :
  JS.includes_char sep x = false -> JS.split sep x = [x].
Proof.
  induction x as [|c r IH]; [reflexivity|].
  cbn [JS.includes_char JS.split]. intros H.
  apply orb_false_iff in H. destruct H as [Hc Hr].
  rewrite Hc, (IH Hr). reflexivity.
Qed.

Lemma split_app_separator (sep : ascii) (x r : string) :
  JS.includes_char sep x = false ->
  JS.split sep (x ++ String sep r)%string = x :: JS.split sep r.
Proof.
  induction x as [|c x IH]; cbn [append JS.includes_char JS.split]; intros H.
  - now rewrite Ascii.eqb_refl.
  - apply orb_false_iff in H. destruct H as [Hc Hx].
    rewrite Hc, (IH Hx). reflexivity.
Qed.

Lemma split_join (sep : ascii) (l : list string) :
  l <> [] -> Forall (fun x => JS.includes_char sep x = false) l ->
  JS.split sep (JS.join (String sep "") l) = l.
Proof.
  induction l as [|x l IH]; [congruence|]. intros _ Hall.
  inversion Hall as [|? ? Hx Hl]; subst.
  destruct l as [|y l].
  - cbn [JS.join]. now apply split_without_separator.
  - rewrite join_cons by discriminate. cbn [append].
    rewrite split_app_separator by assumption.
    rewrite IH; [reflexivity | discriminate | assumption].
Qed.

Lemma replace_first_space_none (s : string) :
  has_space s = false -> JS.replace_first_space s = s.
Proof.
  induction s as [|c r IH]; [reflexivity|].
  cbn [has_space JS.replace_first_space]. intros H.
  apply orb_false_iff in H. destruct H as [Hc Hr].
  rewrite Hc, (IH Hr). reflexivity.
Qed.

Lemma replace_first_space_app (a b : string) (c : ascii) :
  has_space a = false -> JS.is_space c = true ->
  JS.replace_first_space (a ++ String c b)%string = (a ++ b)%string.
Proof.
  intros Ha Hc. induction a as [|x a IH]; cbn [append JS.replace_first_space].
  - now rewrite Hc.
  - cbn [has_space] in Ha. apply orb_false_iff in Ha. destruct Ha as [Hx Ha].
    rewrite Hx, (IH Ha). reflexivity.
Qed.

Lemma task_name_has_space (e : string) :
  has_space (task_name e) = has_space e.
Proof.
  unfold task_name. induction e as [|x e IH]; [reflexivity|].
  cbn [JS.replace_first]. destruct (Ascii.eqb x "-") eqn:E.
  - apply Ascii.eqb_eq in E. subst x. reflexivity.
  - cbn [has_space]. now rewrite IH.
Qed.

(** C9. Only the first white space character of the task-name list is
    removed before the list is split on commas: the entries are those of the
    list without that one character, every other character of the list,
    white space included, is still in the entries, and the normalisation of
    a name leaves its white space in place. *)
Theorem C9_first_space_only (a b : string) (c : ascii)
    (Ha : has_space a = false) (Hc : JS.is_space c = true) :
  task_entries (a ++ String c b)%string = JS.split ","%char (a ++ b)%string
  /\ JS.join "," (task_entries (a ++ String c b)%string) = (a ++ b)%string
  /\ (forall e, In e (task_entries (a ++ String c b)%string) ->
        has_space (task_name e) = has_space e).
Proof.
  unfold task_entries. rewrite (replace_first_space_app a b c Ha Hc).
  repeat split.
  - apply join_split.
  - intros e _. apply task_name_has_space.
Qed.

(** ** Task handlers *)

Section Handlers.

Variables (Cfg Val Err Ext : Type).
Variable world : World Cfg Val Err Ext.

Lemma mapM_perform_trace (cli : Cli) (cfg : Cfg) (l : list call)
    (h : list (event Val Ext)) :
  fst (mapM (perform world cli cfg) l h) = map Call l.
Proof.
  revert h. induction l as [|c l IH]; intros h; [reflexivity|].
  cbn [mapM map]. unfold bind at 1. unfold perform at 1.
  unfold bind at 1.
  specialize (IH (h ++ inject [Call c])).
  destruct (mapM (perform world cli cfg) l (h ++ inject [Call c])) as [t bs].
  cbn in IH |- *. rewrite app_nil_r. now rewrite IH.
Qed.

Lemma all_of_trace (cli : Cli) (cfg : Cfg) (l : list call)
    (h : list (event Val Ext)) :
  fst (all_of world cli cfg l h) = map Call l.
Proof.
  unfold all_of, bind.
  pose proof (mapM_perform_trace cli cfg l h) as H.
  destruct (mapM (perform world cli cfg) l h) as [t ps].
  cbn in H |- *. now rewrite app_nil_r.
Qed.

Lemma calls_map_Call (l : list call) :
  calls (map (@Call Val Ext) l) = l.
Proof. induction l as [|c l IH]; [reflexivity|]. cbn. now rewrite IH. Qed.

(** C10. The manifest task calls the manifest writer for every resolved
    target and then for ['server']; without a [target] option the calls are
    those for ['dist'], ['dist-dev'] and ['server'], in that order. *)
Theorem C10_manifest_server (cli : Cli) (cfg : Cfg) (h : list (event Val Ext)) :
  calls (fst (TASKS_build_manifest world cli cfg h))
  = map writeManifest (_getTargets cli ["dist"; "dist-dev"] false ++ ["server"])
  /\ (JS.truthy (option_ cli "target") = false ->
      calls (fst (TASKS_build_manifest world cli cfg h))
      = [writeManifest "dist"; writeManifest "dist-dev"; writeManifest "server"]).
Proof.
  assert (H : calls (fst (TASKS_build_manifest world cli cfg h))
              = map writeManifest
                  (_getTargets cli ["dist"; "dist-dev"] false ++ ["server"])).
  { unfold TASKS_build_manifest. rewrite all_of_trace. apply calls_map_Call. }
  split; [exact H|].
  intros Hnone. rewrite H, (getTargets_missing _ _ _ Hnone). reflexivity.
Qed.

(** C8. When the [name] option is absent, or holds no ['/'], the package
    task throws 'Invalid package name' and has called no collaborator; with
    a name that holds a ['/'] it calls the package builder once for every
    resolved target. *)
Theorem C8_package_name (cli : Cli) (cfg : Cfg) (h : list (event Val Ext)) :
  (option_ cli "name" = None
   \/ (exists n, option_ cli "name" = Some n
                 /\ JS.includes_char "/"%char n = false) ->
   TASKS_build_package world cli cfg h
   = ([], Threw (ErrorObject "Invalid package name")))
  /\ (forall n, option_ cli "name" = Some n ->
        JS.includes_char "/"%char n = true ->
        calls (fst (TASKS_build_package world cli cfg h))
        = map (fun target => buildPackage target n)
              (_getTargets cli ["dist"; "dist-dev"] false)).
Proof.
  unfold TASKS_build_package. split.
  - intros [-> | [n [-> Hn]]]; [reflexivity|].
    rewrite Hn. rewrite orb_true_r. reflexivity.
  - intros n -> Hn. rewrite Hn.
    assert (Ht : JS.truthy_string n = true) by (destruct n; [discriminate | reflexivity]).
    rewrite Ht. cbn [negb orb].
    rewrite all_of_trace. apply calls_map_Call.
Qed.

(** C7. With an absent or an empty task-name list the runner rejects with
    'Not enough arguments' and does nothing else: the configuration is not
    loaded.  With any other list the first thing it does is to load the
    configuration. *)
Theorem C7_not_enough_arguments (cli : Cli) (taskName : string)
    (namespace : Namespace Cfg Val Err Ext) (h : list (event Val Ext))
    (args : option string) :
  (args = None \/ args = Some "" <-> JS.truthy args = false)
  /\ (JS.truthy args = false ->
      _eachTask world cli args taskName namespace h
      = ([], Rejected (Message "Not enough arguments"))
      /\ loads (fst (_eachTask world cli args taskName namespace h)) = 0
      /\ forall T, exports_generate world T cli args h
                   = ([], Rejected (Message "Not enough arguments")))
  /\ (JS.truthy args = true ->
      exists t out,
        _eachTask world cli args taskName namespace h
        = (GetConfiguration :: t, out)).
Proof.
  split; [|split].
  - split.
    + intros [-> | ->]; reflexivity.
    + destruct args as [[|c a]|]; cbn; intros H;
        [now right | discriminate | now left].
  - intros Hargs.
    assert (Hrun : forall tn ns,
               _eachTask world cli args tn ns h
               = ([], Rejected (Message "Not enough arguments"))).
    { intros tn ns. unfold _eachTask.
      destruct args as [a|]; [|reflexivity].
      cbn in Hargs. now rewrite Hargs. }
    repeat split.
    + apply Hrun.
    + now rewrite Hrun.
    + intros T. apply Hrun.
  - intros Hargs. unfold _eachTask.
    destruct args as [a|]; [|discriminate]. cbn in Hargs. rewrite Hargs.
    cbn [negb]. unfold bind, load_configuration.
    destruct (getConfiguration world h) as [[cfg|r|]|r];
      try (eexists; eexists; reflexivity).
    cbn [inject Inject_event].
    destruct (run_chain cli cfg taskName namespace (task_entries a) _)
      as [t out].
    now exists t, out.
Qed.

End Handlers.

(** ** The chain of tasks *)

Section Chain.

Variables (Cfg Val Err Ext : Type).
Variable world : World Cfg Val Err Ext.

Notation trace := (list (event Val Ext)).
Notation step := (M Val Ext (event Val Ext) (completion Err (value Val))).

Lemma eachp_from_cons (acc : list (value Val)) (f : step) (rest : list step)
    (h : trace) :
  eachp_from acc (f :: rest) h
  = let (t, c) := f h in
    match c with
    | Returned (Resolved v) =>
        let (t', o) := eachp_from (v :: acc) rest (h ++ t) in (t ++ t', o)
    | Returned (Rejected r) => (t, Rejected r)
    | Returned Pending => (t, Pending)
    | Threw r => (t, Rejected r)
    end.
Proof.
  cbn [eachp_from]. unfold bind. destruct (f h) as [t c].
  destruct c as [[v|r|]|r]; cbn [inject Inject_event ret];
    rewrite ?app_nil_r; reflexivity.
Qed.

(** When the first functions of a list all resolve, the iteration goes on
    with the rest, after their events. *)
Lemma eachp_from_resolved_app (pre rest : list step) :
  forall (acc : list (value Val)) (h t1 : trace) (v : value Val),
    eachp_from acc pre h = (t1, Resolved v) ->
    exists acc',
      v = Array (rev acc')
      /\ eachp_from acc (pre ++ rest) h
         = let (t2, o) := eachp_from acc' rest (h ++ t1) in (t1 ++ t2, o).
Proof.
  induction pre as [|f pre IH]; intros acc h t1 v H.
  - cbn in H. injection H as <- <-. exists acc. split; [reflexivity|].
    cbn [app]. rewrite app_nil_r.
    destruct (eachp_from acc rest h); reflexivity.
  - rewrite eachp_from_cons in H. cbn [app]. rewrite eachp_from_cons.
    destruct (f h) as [t c].
    destruct c as [[v0|r|]|r]; try discriminate.
    destruct (eachp_from (v0 :: acc) pre (h ++ t)) as [t' o] eqn:E.
    injection H as <- ->.
    destruct (IH _ _ _ _ E) as [acc' [Hv Happ]].
    exists acc'. split; [assumption|].
    rewrite Happ. rewrite <- !app_assoc.
    destruct (eachp_from acc' rest (h ++ t ++ t')); now rewrite app_assoc.
Qed.

Lemma run_chain_app (cli : Cli) (cfg : Cfg) (taskName : string)
    (namespace : Namespace Cfg Val Err Ext) (pre : list string) (e : string)
    (post : list string) (h t1 t2 : trace) (v : value Val)
    (c : completion Err (value Val)) :
  run_chain cli cfg taskName namespace pre h = (t1, Resolved v) ->
  task_step cli cfg taskName namespace e (h ++ t1) = (t2, c) ->
  exists acc,
    v = Array (rev acc)
    /\ run_chain cli cfg taskName namespace (pre ++ e :: post) h
       = match c with
         | Returned (Resolved w) =>
             let (t3, o) :=
               eachp_from (w :: acc)
                 (map (task_step cli cfg taskName namespace) post)
                 (h ++ t1 ++ t2) in
             (t1 ++ t2 ++ t3, o)
         | Returned (Rejected r) => (t1 ++ t2, Rejected r)
         | Returned Pending => (t1 ++ t2, Pending)
         | Threw r => (t1 ++ t2, Rejected r)
         end.
Proof.
  unfold run_chain, eachp. intros Hpre He.
  destruct (eachp_from_resolved_app _
              (map (task_step cli cfg taskName namespace) (e :: post))
              _ _ Hpre) as [acc [Hv Happ]].
  exists acc. split; [assumption|].
  rewrite map_app, Happ. cbn [map]. rewrite eachp_from_cons, He.
  destruct c as [[w|r|]|r]; try reflexivity.
  rewrite <- app_assoc.
  destruct (eachp_from (w :: acc) _ (h ++ t1 ++ t2)); reflexivity.
Qed.

Lemma eachTask_loaded (cli : Cli) (a : string) (taskName : string)
    (namespace : Namespace Cfg Val Err Ext) (h : trace) (cfg : Cfg) :
  a <> "" -> getConfiguration world h = Returned (Resolved cfg) ->
  _eachTask world cli (Some a) taskName namespace h
  = let (t, o) := run_chain cli cfg taskName namespace (task_entries a)
                    (h ++ [GetConfiguration]) in
    (GetConfiguration :: t, o).
Proof.
  intros Ha Hcfg. apply truthy_string_true in Ha.
  unfold _eachTask. rewrite Ha. cbn [negb].
  unfold bind, load_configuration. rewrite Hcfg.
  cbn [inject Inject_event]. reflexivity.
Qed.

Lemma task_step_object (cli : Cli) (cfg : Cfg) (taskName : string)
    (o : Obj.t (Handler Cfg Val Err Ext)) (e : string) (h : trace) :
  task_step cli cfg taskName (NsObject o) e h
  = match Obj.get o (task_name e) with
    | Some handler =>
        let (t, c) := handler cli cfg (h ++ [Running taskName (task_name e)]) in
        (Running taskName (task_name e) :: map Task t, c)
    | None =>
        ([], Returned (Rejected (Message ("Invalid task: " ++ task_name e))))
    end.
Proof.
  unfold task_step. destruct (Obj.get o (task_name e)) as [handler|];
    [|reflexivity].
  unfold bind, emit, lift. cbn [inject Inject_event].
  destruct (handler cli cfg (h ++ [Running taskName (task_name e)]));
    reflexivity.
Qed.


Lemma started_app (a b : trace) : started (a ++ b) = started a ++ started b.
Proof.
  induction a as [|x a IH]; [reflexivity|].
  destruct x; cbn; now rewrite IH.
Qed.

Lemma started_tasks (t : list (effect Val Ext)) : started (map Task t) = [].
Proof. induction t as [|x t IH]; [reflexivity | exact IH]. Qed.







(** The tasks started by a chain over an object are a prefix of the
    normalised entries, and all of them when the chain resolves. *)
Lemma started_chain (cli : Cli) (cfg : Cfg) (taskName : string)
    (o : Obj.t (Handler Cfg Val Err Ext)) (es : list string) :
  forall (acc : list (value Val)) (h : trace),
    exists rest,
      map task_name es
      = started (fst (eachp_from acc
                        (map (task_step cli cfg taskName (NsObject o)) es) h))
        ++ rest
      /\ (forall v,
            snd (eachp_from acc
                   (map (task_step cli cfg taskName (NsObject o)) es) h)
            = Resolved v -> rest = []).
Proof.
  induction es as [|e es IH]; intros acc h.
  - exists []. split; reflexivity.
  - cbn [map]. rewrite eachp_from_cons, task_step_object.
    destruct (Obj.get o (task_name e)) as [handler|].
    + destruct (handler cli cfg _) as [t c].
      destruct c as [[v|r|]|r];
        try (exists (map task_name es); cbn [fst snd started];
             rewrite started_tasks; split; [reflexivity | discriminate]).
      destruct (IH (v :: acc) (h ++ Running taskName (task_name e) :: map Task t))
        as [rest [Hrest Hdone]].
      destruct (eachp_from (v :: acc) _ _) as [t' out].
      exists rest. cbn [fst snd] in *. split; [|exact Hdone].
      cbn [app started]. rewrite started_app, started_tasks. cbn [app].
      now rewrite Hrest.
    + exists (task_name e :: map task_name es).
      split; [reflexivity | discriminate].
Qed.


Lemma task_name_no_hyphen (s : string) :
  JS.includes_char "-"%char s = false -> task_name s = s.
Proof.
  unfold task_name. induction s as [|c s IH];
    cbn [JS.includes_char JS.replace_first]; intros H; [reflexivity|].
  apply orb_false_iff in H. destruct H as [Hc Hs].
  rewrite Hc, (IH Hs). reflexivity.
Qed.

(** C4. The functions built for the entries run from left to right: when
    the entries before [e] have all resolved and the call for [e] fails,
    the chain is rejected with that very failure and its events are those
    of the entries up to [e], whatever follows [e] in the list; when the
    promise for [e] never settles nothing after [e] starts; when it
    resolves the chain goes on with the entries after [e]; and over an
    object the tasks started are always a prefix of the list. *)
Theorem C4_chain_sequential (cli : Cli) (a taskName : string)
    (namespace : Namespace Cfg Val Err Ext) (h : trace) (cfg : Cfg)
    (pre : list string) (e : string) (post : list string)
    (t1 t2 : trace) (v : value Val) (c : completion Err (value Val))
    (Ha : a <> "")
    (Hcfg : getConfiguration world h = Returned (Resolved cfg))
    (Hentries : task_entries a = pre ++ e :: post)
    (Hpre : run_chain cli cfg taskName namespace pre (h ++ [GetConfiguration])
            = (t1, Resolved v))
    (He : task_step cli cfg taskName namespace e
            ((h ++ [GetConfiguration]) ++ t1) = (t2, c)) :
  (forall r, failure_of c = Some r ->
     _eachTask world cli (Some a) taskName namespace h
     = (GetConfiguration :: t1 ++ t2, Rejected r))
  /\ (c = Returned Pending ->
      _eachTask world cli (Some a) taskName namespace h
      = (GetConfiguration :: t1 ++ t2, Pending))
  /\ (forall w, c = Returned (Resolved w) ->
      exists acc t3 out,
        v = Array (rev acc)
        /\ eachp_from (w :: acc)
             (map (task_step cli cfg taskName namespace) post)
             ((h ++ [GetConfiguration]) ++ t1 ++ t2) = (t3, out)
        /\ _eachTask world cli (Some a) taskName namespace h
           = (GetConfiguration :: t1 ++ t2 ++ t3, out))
  /\ (forall o, namespace = NsObject o ->
      exists rest,
        map task_name (task_entries a)
        = started (fst (_eachTask world cli (Some a) taskName namespace h))
          ++ rest
        /\ (forall u,
              snd (_eachTask world cli (Some a) taskName namespace h)
              = Resolved u -> rest = [])).
Proof.
  pose proof (@eachTask_loaded cli a taskName namespace h cfg Ha Hcfg) as Hrun.
  destruct (@run_chain_app cli cfg taskName namespace pre e post _ t1 t2 v c Hpre He)
    as [acc [Hv Happ]].
  rewrite <- Hentries in Happ.
  repeat split.
  - intros r Hr. rewrite Hrun, Happ.
    destruct c as [[w|r'|]|r']; cbn in Hr; try discriminate;
      injection Hr as ->; reflexivity.
  - intros ->. now rewrite Hrun, Happ.
  - intros w ->.
    destruct (eachp_from (w :: acc) _ ((h ++ [GetConfiguration]) ++ t1 ++ t2))
      as [t3 out] eqn:E.
    exists acc, t3, out. repeat split; try assumption.
    now rewrite Hrun, Happ.
  - intros o ->. rewrite Hrun. unfold run_chain, eachp.
    destruct (started_chain cli cfg taskName o (task_entries a) []
                (h ++ [GetConfiguration])) as [rest [Hrest Hdone]].
    destruct (eachp_from [] _ (h ++ [GetConfiguration])) as [t out].
    exists rest. split; assumption.
Qed.


(** ** The entry points *)

Lemma default_args_given (T : Tasks Cfg Val Err Ext) :
  JS.truthy (Some (JS.join "," (default_stages world T))) = true.
Proof.
  unfold default_stages. cbn [app].
  rewrite join_cons by discriminate. reflexivity.
Qed.

Lemma eachTask_not_loaded (cli : Cli) (a taskName : string)
    (namespace : Namespace Cfg Val Err Ext) (h : trace) (r : reason Err) :
  JS.truthy_string a = true ->
  failure_of (getConfiguration world h) = Some r ->
  _eachTask world cli (Some a) taskName namespace h
  = ([GetConfiguration], Rejected r).
Proof.
  intros Ha Hfail. unfold _eachTask. rewrite Ha. cbn [negb].
  unfold bind, load_configuration.
  destruct (getConfiguration world h) as [[cfg|r'|]|r']; cbn in Hfail;
    try discriminate; injection Hfail as ->; reflexivity.
Qed.

(** C1. When the configuration cannot be loaded, the chain runner (hence
    [build] and [generate]) is rejected with the failure of the load and
    starts no task.  The [config] entry point is rejected only when
    [getConfiguration] throws: when the promise of [getConfiguration] is
    rejected the promise of [config] is never settled. *)
Theorem C1_configuration_failure (cli : Cli) (h : trace) (r : reason Err)
    (Hfail : failure_of (getConfiguration world h) = Some r) :
  (forall a taskName namespace, a <> "" ->
     _eachTask world cli (Some a) taskName namespace h
     = ([GetConfiguration], Rejected r))
  /\ (forall T args,
        exports_build world T cli args h = ([GetConfiguration], Rejected r))
  /\ (forall T a, a <> "" ->
        exports_generate world T cli (Some a) h
        = ([GetConfiguration], Rejected r))
  /\ (forall T arg handler,
        Obj.get (tasks_config T)
          (task_name (match arg with Some s => s | None => "" end))
        = Some handler ->
        exports_config world T cli arg h
        = ([GetConfiguration],
           match getConfiguration world h with
           | Threw _ => Rejected r
           | Returned _ => Pending
           end)).
Proof.
  repeat split.
  - intros a taskName namespace Ha. apply truthy_string_true in Ha.
    now apply eachTask_not_loaded.
  - intros T args. unfold exports_build.
    destruct (JS.truthy args) eqn:Hargs; cbn [negb].
    + destruct args as [a|]; [|discriminate].
      now apply eachTask_not_loaded.
    + apply eachTask_not_loaded; [|assumption].
      exact (default_args_given T).
  - intros T a Ha. apply truthy_string_true in Ha.
    now apply eachTask_not_loaded.
  - intros T arg handler Hget. unfold exports_config.
    change (JS.replace_first "-" "_" (match arg with Some a => a | None => "" end))
      with (task_name (match arg with Some s => s | None => "" end)).
    rewrite Hget. unfold bind, load_configuration.
    destruct (getConfiguration world h) as [[cfg|r'|]|r']; cbn in Hfail;
      try discriminate; injection Hfail as ->; reflexivity.
Qed.

Lemma has_space_app (a b : string) :
  has_space (a ++ b) = has_space a || has_space b.
Proof.
  induction a as [|c a IH]; [reflexivity|].
  cbn [append has_space]. now rewrite IH, orb_assoc.
Qed.

Lemma has_space_join (l : list string) :
  Forall (fun k => has_space k = false) l ->
  has_space (JS.join "," l) = false.
Proof.
  induction l as [|x l IH]; [reflexivity|]. intros Hall.
  inversion Hall as [|? ? Hx Hl]; subst.
  destruct l as [|y l]; [exact Hx|].
  rewrite join_cons by discriminate.
  rewrite !has_space_app, Hx, (IH Hl). reflexivity.
Qed.

(** C3. Without task names, [build] runs the chain of the five canonical
    stages followed by the keys of [TASKS.build] that are neither in
    [ORIGINAL_TASKS.build] nor canonical, each once and in the order of the
    keys; when no key holds a comma or white space, the entries that the
    runner splits off the joined list are that very list. *)
Theorem C3_default_stages (T : Tasks Cfg Val Err Ext) (cli : Cli) (h : trace)
    (Hwf : Obj.wf (tasks_build T)) :
  let canonical := ["config"; "core"; "themes"; "manifest"; "packages"] in
  exists extras,
    default_stages world T = canonical ++ extras
    /\ NoDup extras
    /\ (forall x, In x extras <->
                  In x (Obj.keys (tasks_build T))
                  /\ ~ In x (ORIGINAL_TASKS_build world)
                  /\ ~ In x canonical)
    /\ (exists keep, extras = filter keep (Obj.keys (tasks_build T)))
    /\ exports_build world T cli None h
       = _eachTask world cli (Some (JS.join "," (canonical ++ extras)))
           "build" (NsObject (tasks_build T)) h
    /\ (Forall (fun k => JS.includes_char ","%char k = false
                         /\ has_space k = false)
               (Obj.keys (tasks_build T)) ->
        task_entries (JS.join "," (canonical ++ extras)) = canonical ++ extras).
Proof.
  intros canonical.
  set (keep := fun i => negb (JS.includes (ORIGINAL_TASKS_build world) i)
                        && negb (JS.includes canonical i)).
  exists (filter keep (Obj.keys (tasks_build T))).
  split; [reflexivity|].
  split; [apply NoDup_filter; exact Hwf|].
  split.
  { intros x. rewrite filter_In. unfold keep.
    rewrite andb_true_iff, !negb_true_iff, !includes_not_In. tauto. }
  split; [now exists keep|].
  split; [reflexivity|].
  intros Hkeys.
  assert (Hall : Forall (fun k => JS.includes_char ","%char k = false
                                  /\ has_space k = false)
                   (canonical ++ filter keep (Obj.keys (tasks_build T)))).
  { apply Forall_app. split.
    - repeat constructor.
    - rewrite Forall_forall in *. intros x Hx.
      apply filter_In in Hx. now apply Hkeys. }
  unfold task_entries.
  rewrite replace_first_space_none.
  - apply split_join; [discriminate|].
    eapply Forall_impl; [|exact Hall]. now intros k [Hk _].
  - apply has_space_join.
    eapply Forall_impl; [|exact Hall]. now intros k [_ Hk].
Qed.

End Chain.

(** * Concrete runs *)

(** The plugin of the specification's example: [build.lint] goes last. *)
Example default_stages_with_lint :
  default_stages calm_world (_init [lint_module] (TASKS calm_world))
  = ["config"; "core"; "themes"; "manifest"; "packages"; "lint"].
Proof. reflexivity. Qed.

Example resolve_trims_and_drops_blanks :
  _getTargets (cli_of [("target", "x, y , ,z")]) ["dist"; "dist-dev"] false
  = ["x"; "y"; "z"].
Proof. reflexivity. Qed.

(** C2 as stated fails: the option value "a,a" against the defaults ["a"]
    yields "a" twice, in strict and in non-strict mode. *)
Lemma C2_duplicates_are_kept :
  _getTargets (cli_of [("target", "a,a")]) ["a"] true = ["a"; "a"]
  /\ _getTargets (cli_of [("target", "a,a")]) ["a"] false = ["a"; "a"]
  /\ ~ NoDup (_getTargets (cli_of [("target", "a,a")]) ["a"] true).
Proof.
  repeat split. intros H. inversion H as [|x l Hin _]; subst.
  apply Hin. now left.
Qed.

Lemma C2_distinct_entries_witness :
  NoDup (_getTargets (cli_of [("target", "a, b")]) ["a"; "b"] true).
Proof.
  apply C2_distinct_entries_stay_distinct.
  - distinct.
  - intros t Ht. injection Ht as <-. vm_compute. distinct.
Defined.

Lemma C5_strict_resolution_witness :
  _getTargets (cli_of [("target", "a,b,bogus")]) ["a"; "b"] true = ["a"; "b"]
  /\ _getTargets (cli_of [("target", "bogus")]) ["a"; "b"] true = ["a"; "b"].
Proof.
  split.
  - destruct (@C5_strict_resolution (cli_of [("target", "a,b,bogus")])
                ["a"; "b"] ltac:(discriminate)) as [H _].
    destruct (H "a,b,bogus" eq_refl ltac:(discriminate)) as [Hkept _].
    apply Hkept. vm_compute. discriminate.
  - destruct (@C5_strict_resolution (cli_of [("target", "bogus")])
                ["a"; "b"] ltac:(discriminate)) as [H _].
    destruct (H "bogus" eq_refl ltac:(discriminate)) as [_ [Hnone _]].
    apply Hnone. reflexivity.
Defined.

Lemma C9_first_space_only_witness :
  task_entries "config, core, themes" = ["config"; "core"; " themes"]
  /\ JS.join "," (task_entries "config, core, themes") = "config,core, themes".
Proof.
  destruct (@C9_first_space_only "config," "core, themes" " " eq_refl eq_refl)
    as [Hentries [Hjoin _]].
  split; [exact Hentries | exact Hjoin].
Defined.

(** The entry left with its white space is not a task. *)
Example build_with_spaces :
  exports_build calm_world (TASKS calm_world) (cli_of [])
    (Some "config, core, themes") []
  = ([GetConfiguration;
      Running "build" "config";
      Task (Call (writeConfiguration "client"));
      Task (Call (writeConfiguration "server"));
      Running "build" "core";
      Task (Call (buildFiles "dist"));
      Task (Call (buildFiles "dist-dev"))],
     Rejected (Message "Invalid task:  themes")).
Proof. reflexivity. Qed.

Lemma C10_manifest_server_witness :
  calls (fst (TASKS_build_manifest calm_world (cli_of []) tt []))
  = [writeManifest "dist"; writeManifest "dist-dev"; writeManifest "server"].
Proof.
  apply (proj2 (C10_manifest_server calm_world (cli_of []) tt [])).
  reflexivity.
Defined.

Lemma C8_package_name_witness :
  TASKS_build_package calm_world (cli_of [("name", "app")]) tt []
  = ([], Threw (ErrorObject "Invalid package name")).
Proof.
  apply (proj1 (C8_package_name calm_world (cli_of [("name", "app")]) tt [])).
  right. exists "app". split; reflexivity.
Defined.

Lemma C7_not_enough_arguments_witness :
  _eachTask calm_world (cli_of []) None "build"
    (NsObject (tasks_build (TASKS calm_world))) []
  = ([], Rejected (Message "Not enough arguments"))
  /\ _eachTask calm_world (cli_of []) (Some "") "generate"
       (NsFunction (tasks_generate (TASKS calm_world))) []
     = ([], Rejected (Message "Not enough arguments")).
Proof.
  split.
  - apply (proj1 (proj2 (C7_not_enough_arguments calm_world (cli_of []) "build"
                    (NsObject (tasks_build (TASKS calm_world))) [] None))).
    reflexivity.
  - apply (proj1 (proj2 (C7_not_enough_arguments calm_world (cli_of [])
                    "generate"
                    (NsFunction (tasks_generate (TASKS calm_world))) []
                    (Some "")))).
    reflexivity.
Defined.

Lemma C4_chain_sequential_witness :
  _eachTask core_fails_world (cli_of [])
    (Some "config,core,themes,manifest,packages") "build"
    (NsObject (tasks_build (TASKS core_fails_world))) []
  = ([GetConfiguration;
      Running "build" "config";
      Task (Call (writeConfiguration "client"));
      Task (Call (writeConfiguration "server"));
      Running "build" "core";
      Task (Call (buildFiles "dist"));
      Task (Call (buildFiles "dist-dev"))],
     Rejected (Failure "core failed")).
Proof.
  apply (proj1 (@C4_chain_sequential unit unit string Empty_set
                  core_fails_world (cli_of [])
                  "config,core,themes,manifest,packages" "build"
                  (NsObject (tasks_build (TASKS core_fails_world))) [] tt
                  ["config"] "core" ["themes"; "manifest"; "packages"]
                  [Running "build" "config";
                   Task (Call (writeConfiguration "client"));
                   Task (Call (writeConfiguration "server"))]
                  [Running "build" "core";
                   Task (Call (buildFiles "dist"));
                   Task (Call (buildFiles "dist-dev"))]
                  (Array [Array [Undefined; Undefined]])
                  (Returned (Rejected (Failure "core failed")))
                  ltac:(discriminate) eq_refl eq_refl eq_refl eq_refl)).
  reflexivity.
Defined.


(** C1 at the failing input: the action is registered, the promise of
    [getConfiguration] is rejected, and the promise of [config] is left
    unsettled, while [build] is rejected. *)
Lemma C1_configuration_failure_witness :
  exports_config unconfigured_world (TASKS unconfigured_world) (cli_of [])
    (Some "get") []
  = ([GetConfiguration], Pending)
  /\ exports_build unconfigured_world (TASKS unconfigured_world) (cli_of [])
       None []
     = ([GetConfiguration], Rejected (Failure "ENOENT")).
Proof.
  destruct (@C1_configuration_failure unit unit string Empty_set
              unconfigured_world (cli_of []) [] (Failure "ENOENT") eq_refl)
    as [_ [Hbuild [_ Hconfig]]].
  split.
  - exact (Hconfig (TASKS unconfigured_world) (Some "get") _ eq_refl).
  - exact (Hbuild (TASKS unconfigured_world) None).
Defined.

Lemma C3_default_stages_witness :
  exists extras,
    default_stages calm_world (_init [lint_module] (TASKS calm_world))
    = ["config"; "core"; "themes"; "manifest"; "packages"] ++ extras
    /\ NoDup extras
    /\ (In "lint" extras)
    /\ task_entries
         (JS.join "," (["config"; "core"; "themes"; "manifest"; "packages"]
                       ++ extras))
       = ["config"; "core"; "themes"; "manifest"; "packages"] ++ extras.
Proof.
  destruct (@C3_default_stages unit unit string Empty_set calm_world
              (_init [lint_module] (TASKS calm_world)) (cli_of []) [])
    as [extras [Hstages [Hnodup [Hin [_ [_ Hentries]]]]]].
  - vm_compute. distinct.
  - exists extras. repeat split; try assumption.
    + apply Hin. vm_compute. intuition discriminate.
    + apply Hentries. vm_compute. repeat constructor.
Defined.

(** * Further properties of the code *)

(** ** The resolver *)

Lemma getTargets_strict_member (cli : Cli) (D : list string) (x : string) :
  In x (_getTargets cli D true) -> In x D.
Proof.
  destruct (option_ cli "target") as [t|] eqn:E.
  - destruct (string_dec t "") as [->|Hne].
    + rewrite getTargets_missing; [trivial | now rewrite E].
    + rewrite (getTargets_given cli D true E Hne). cbn zeta.
      destruct (filter (allowed D true) (trimmed_entries t)) as [|y l] eqn:F;
        [trivial|].
      rewrite <- F. intros Hin. apply filter_In in Hin.
      destruct Hin as [_ Hin]. now apply includes_In.
  - rewrite getTargets_missing; [trivial | now rewrite E].
Qed.

Lemma getTargets_strict_not_nil (cli : Cli) (D : list string) :
  D <> [] -> _getTargets cli D true <> [].
Proof.
  intros HD. destruct (option_ cli "target") as [t|] eqn:E.
  - destruct (string_dec t "") as [->|Hne].
    + rewrite getTargets_missing; [assumption | now rewrite E].
    + rewrite (getTargets_given cli D true E Hne). cbn zeta.
      destruct (filter (allowed D true) (trimmed_entries t));
        [assumption | discriminate].
  - rewrite getTargets_missing; [assumption | now rewrite E].
Qed.

(** X1. In strict mode every target that the resolver returns is one of the
    defaults, whatever the option holds, and the result is empty only when
    the defaults are. *)
Theorem X1_strict_targets_are_defaults (cli : Cli) (D : list string) :
  Forall (fun x => In x D) (_getTargets cli D true)
  /\ (_getTargets cli D true = [] <-> D = []).
Proof.
  split.
  - apply Forall_forall. intros x. apply getTargets_strict_member.
  - split.
    + intros Hnil. destruct D as [|d D]; [reflexivity|].
      exfalso. apply (@getTargets_strict_not_nil cli (d :: D));
        [discriminate | assumption].
    + intros ->. destruct (_getTargets cli [] true) as [|x l] eqn:E;
        [reflexivity|].
      exfalso. apply (@getTargets_strict_member cli [] x).
      rewrite E. now left.
Qed.

Lemma trimStart_clean (s : string) : starts_clean (JS.trimStart s) = true.
Proof.
  induction s as [|c r IH]; [reflexivity|].
  cbn [JS.trimStart]. destruct (JS.is_space c) eqn:E; [exact IH|].
  cbn. now rewrite E.
Qed.

Lemma trimStart_of_clean (s : string) :
  starts_clean s = true -> JS.trimStart s = s.
Proof.
  destruct s as [|c r]; [reflexivity|]. cbn. intros H.
  apply negb_true_iff in H. now rewrite H.
Qed.

Lemma trimEnd_clean (s : string) :
  starts_clean s = true -> starts_clean (JS.trimEnd s) = true.
Proof.
  destruct s as [|c r]; [reflexivity|]. cbn [starts_clean JS.trimEnd].
  intros H. apply negb_true_iff in H.
  destruct (JS.trimEnd r); rewrite ?H; cbn; now rewrite H.
Qed.

Lemma trimEnd_cons (c : ascii) (r : string) :
  JS.trimEnd (String c r)
  = match JS.trimEnd r with
    | EmptyString => if JS.is_space c then EmptyString else String c EmptyString
    | String x r' => String c (String x r')
    end.
Proof. reflexivity. Qed.

Lemma trimEnd_idempotent (s : string) : JS.trimEnd (JS.trimEnd s) = JS.trimEnd s.
Proof.
  induction s as [|c r IH]; [reflexivity|].
  rewrite trimEnd_cons. destruct (JS.trimEnd r) as [|x r'] eqn:E.
  - destruct (JS.is_space c) eqn:Hc; [reflexivity|].
    rewrite trimEnd_cons. cbn [JS.trimEnd]. now rewrite Hc.
  - rewrite trimEnd_cons, IH. reflexivity.
Qed.

Lemma trim_idempotent (s : string) : JS.trim (JS.trim s) = JS.trim s.
Proof.
  unfold JS.trim.
  rewrite (trimStart_of_clean (JS.trimEnd (JS.trimStart s))).
  - apply trimEnd_idempotent.
  - apply trimEnd_clean, trimStart_clean.
Qed.

Lemma trimStart_keeps_out (c : ascii) (s : string) :
  JS.includes_char c s = false -> JS.includes_char c (JS.trimStart s) = false.
Proof.
  induction s as [|x r IH]; [reflexivity|].
  cbn [JS.trimStart]. destruct (JS.is_space x); [|trivial].
  cbn [JS.includes_char]. intros H. apply orb_false_iff in H. now apply IH.
Qed.

Lemma trimEnd_keeps_out (c : ascii) (s : string) :
  JS.includes_char c s = false -> JS.includes_char c (JS.trimEnd s) = false.
Proof.
  induction s as [|x r IH]; [reflexivity|].
  cbn [JS.includes_char JS.trimEnd]. intros H.
  apply orb_false_iff in H. destruct H as [Hx Hr]. specialize (IH Hr).
  destruct (JS.trimEnd r) as [|y r'].
  - destruct (JS.is_space x); cbn [JS.includes_char]; [reflexivity|].
    now rewrite Hx.
  - cbn [JS.includes_char] in *. now rewrite Hx, IH.
Qed.

Lemma split_pieces_keep_out (sep : ascii) (s : string) :
  Forall (fun p => JS.includes_char sep p = false) (JS.split sep s).
Proof.
  induction s as [|c r IH]; [repeat constructor|].
  cbn [JS.split]. destruct (Ascii.eqb c sep) eqn:E.
  - constructor; [reflexivity | exact IH].
  - destruct (JS.split sep r) as [|p l]; [repeat constructor; cbn; now rewrite E|].
    inversion IH as [|? ? Hp Hl]; subst.
    constructor; [|assumption]. cbn. now rewrite E, Hp.
Qed.

(** X2. Without strict mode and with a non-empty option value, the resolver
    returns the trimmed non-blank pieces of the value and nothing else: no
    returned target is empty, starts or ends with white space, or holds a
    comma. *)
Theorem X2_targets_are_clean (cli : Cli) (D : list string) (t : string)
    (Ht : option_ cli "target" = Some t) (Hne : t <> "") :
  _getTargets cli D false = trimmed_entries t
  /\ Forall (fun v => v <> ""
                      /\ JS.trim v = v
                      /\ JS.includes_char ","%char v = false)
            (_getTargets cli D false).
Proof.
  assert (H : _getTargets cli D false = trimmed_entries t).
  { rewrite (getTargets_given cli D false Ht Hne). cbn zeta.
    unfold allowed. induction (trimmed_entries t) as [|x l IH];
      [reflexivity | cbn; now rewrite IH]. }
  split; [exact H|]. rewrite H. unfold trimmed_entries.
  apply Forall_forall. intros v Hv. apply filter_In in Hv.
  destruct Hv as [Hin Hv]. apply in_map_iff in Hin.
  destruct Hin as [p [<- Hp]].
  repeat split.
  - now apply truthy_string_true.
  - apply trim_idempotent.
  - unfold JS.trim. apply trimEnd_keeps_out, trimStart_keeps_out.
    pose proof (split_pieces_keep_out ","%char t) as Hall.
    rewrite Forall_forall in Hall. now apply Hall.
Qed.

(** ** [Promise.all] *)

Section PromiseAll.

Variables (Val Err : Type).

Notation promise := (settled Err (value Val)).

Lemma first_rejected_In (l : list promise) (r : reason Err) :
  first_rejected l = Some r -> In (Rejected r) l.
Proof.
  induction l as [|p l IH]; [discriminate|].
  destruct p as [v|r'|]; cbn [first_rejected]; intros H.
  - right. now apply IH.
  - injection H as ->. now left.
  - right. now apply IH.
Qed.

Lemma first_rejected_none (l : list promise) :
  first_rejected l = None <-> forall r, ~ In (Rejected r) l.
Proof.
  induction l as [|p l IH].
  - split; [intros _ r [] | reflexivity].
  - destruct p as [v|r'|]; cbn [first_rejected].
    + rewrite IH. split; intros H r.
      * intros [Hp|Hin]; [discriminate | now apply (H r)].
      * intros Hin. apply (H r). now right.
    + split; [discriminate|]. intros H. exfalso. apply (H r'). now left.
    + rewrite IH. split; intros H r.
      * intros [Hp|Hin]; [discriminate | now apply (H r)].
      * intros Hin. apply (H r). now right.
Qed.

Lemma all_resolved_map (l : list promise) (vs : list (value Val)) :
  all_resolved l = Some vs <-> l = map (fun v => Resolved v) vs.
Proof.
  revert vs. induction l as [|p l IH]; intros vs.
  - cbn. split.
    + intros H. injection H as <-. reflexivity.
    + destruct vs; [reflexivity | discriminate].
  - destruct p as [v|r|]; cbn [all_resolved].
    + destruct (all_resolved l) as [ws|] eqn:E; cbn [option_map].
      * split.
        -- intros H. injection H as <-. cbn. f_equal. now apply IH.
        -- destruct vs as [|w vs]; [discriminate|]. cbn. intros H.
           injection H as -> Hl. apply IH in Hl. congruence.
      * split; [discriminate|].
        destruct vs as [|w vs]; [discriminate|]. cbn. intros H.
        injection H as _ Hl. apply IH in Hl. discriminate.
    + split; [discriminate | destruct vs; discriminate].
    + split; [discriminate | destruct vs; discriminate].
Qed.

Lemma Promise_all_rejected (l : list promise) (r : reason Err) :
  Promise_all l = Rejected r -> In (Rejected r) l.
Proof.
  unfold Promise_all. destruct (first_rejected l) as [r'|] eqn:E.
  - intros H. injection H as <-. now apply first_rejected_In.
  - destruct (all_resolved l); discriminate.
Qed.

Lemma Promise_all_fails (l : list promise) (r : reason Err) :
  In (Rejected r) l -> exists r', Promise_all l = Rejected r'.
Proof.
  intros Hin. unfold Promise_all.
  destruct (first_rejected l) as [r'|] eqn:E; [now exists r'|].
  exfalso. rewrite first_rejected_none in E. now apply (E r).
Qed.

Lemma Promise_all_resolved (l : list promise) (v : value Val) :
  Promise_all l = Resolved v ->
  exists vs, v = Array vs /\ l = map (fun w => Resolved w) vs.
Proof.
  unfold Promise_all. destruct (first_rejected l); [discriminate|].
  destruct (all_resolved l) as [vs|] eqn:E; [|discriminate].
  intros H. injection H as <-. exists vs. split; [reflexivity|].
  now apply all_resolved_map.
Qed.

End PromiseAll.

(** ** The build tasks *)

Section BuildTasks.

Variables (Cfg Val Err Ext : Type).
Variable world : World Cfg Val Err Ext.

Notation trace := (list (event Val Ext)).

Lemma mapM_perform_run (cli : Cli) (cfg : Cfg) (l : list call) :
  forall h : trace,
    mapM (perform world cli cfg) l h
    = (map Call l, answers world cli cfg l h).
Proof.
  induction l as [|c l IH]; intros h; [reflexivity|].
  cbn [mapM map answers]. unfold bind at 1. unfold perform at 1.
  unfold bind at 1. cbn [inject Inject_effect map].
  rewrite IH. cbn. now rewrite app_nil_r.
Qed.

Lemma all_of_run (cli : Cli) (cfg : Cfg) (l : list call) (h : trace) :
  all_of world cli cfg l h
  = (map Call l, Returned (Promise_all (answers world cli cfg l h))).
Proof.
  unfold all_of, bind. rewrite mapM_perform_run. cbn. now rewrite app_nil_r.
Qed.

Lemma answers_length (cli : Cli) (cfg : Cfg) (l : list call) :
  forall h : trace, List.length (answers world cli cfg l h) = List.length l.
Proof.
  induction l as [|c l IH]; intros h; [reflexivity|].
  cbn. now rewrite IH.
Qed.

Lemma answers_In (cli : Cli) (cfg : Cfg) (l : list call)
    (p : settled Err (value Val)) :
  forall h : trace,
    In p (answers world cli cfg l h) ->
    exists c h', In c l /\ p = collaborator world cli cfg c h'.
Proof.
  induction l as [|c l IH]; intros h; [intros []|].
  cbn [answers]. intros [<-|Hin].
  - exists c, h. split; [now left | reflexivity].
  - destruct (IH _ Hin) as [c' [h' [Hc Hp]]].
    exists c', h'. split; [now right | assumption].
Qed.

Lemma answers_all (cli : Cli) (cfg : Cfg) (P : settled Err (value Val) -> Prop)
    (l : list call) (c : call) :
  In c l -> (forall h', P (collaborator world cli cfg c h')) ->
  forall h : trace, exists p, In p (answers world cli cfg l h) /\ P p.
Proof.
  intros Hin HP. induction l as [|x l IH]; [destruct Hin|]. intros h.
  destruct Hin as [->|Hin].
  - exists (collaborator world cli cfg c h). split; [now left | apply HP].
  - destruct (IH Hin (h ++ [Task (Call x)])) as [p [Hp HPp]].
    exists p. split; [now right | assumption].
Qed.

(** X3. The core task starts the build of every resolved target, whatever
    the builds answer (a failure cancels nothing); it never throws; it is
    rejected only with the failure of one of its builds, it is rejected as
    soon as one target always fails, and when it resolves it resolves with
    one value for each target. *)
Theorem X3_core_fan_out (cli : Cli) (cfg : Cfg) (h : trace) :
  let targets := _getTargets cli ["dist"; "dist-dev"] false in
  fst (TASKS_build_core world cli cfg h)
  = map (fun t => Call (buildFiles t)) targets
  /\ (exists p, snd (TASKS_build_core world cli cfg h) = Returned p)
  /\ (forall r,
        snd (TASKS_build_core world cli cfg h) = Returned (Rejected r) ->
        exists t h', In t targets
                     /\ collaborator world cli cfg (buildFiles t) h'
                        = Rejected r)
  /\ (forall t, In t targets ->
        (forall h', exists r,
            collaborator world cli cfg (buildFiles t) h' = Rejected r) ->
        exists r, snd (TASKS_build_core world cli cfg h)
                  = Returned (Rejected r))
  /\ (forall v,
        snd (TASKS_build_core world cli cfg h) = Returned (Resolved v) ->
        exists vs, v = Array vs /\ List.length vs = List.length targets).
Proof.
  intros targets. unfold TASKS_build_core. fold targets.
  rewrite all_of_run. cbn [fst snd].
  split; [now rewrite map_map|].
  split; [eexists; reflexivity|].
  split; [|split].
  - intros r H. injection H as H. apply Promise_all_rejected in H.
    destruct (answers_In _ _ _ _ _ H) as [c [h' [Hc Hp]]].
    apply in_map_iff in Hc. destruct Hc as [t [<- Ht]].
    exists t, h'. split; [assumption | now symmetry].
  - intros t Ht Hfail.
    destruct (@answers_all cli cfg (fun p => exists r, p = Rejected r)
                (map buildFiles targets) (buildFiles t)
                (in_map _ _ _ Ht) Hfail h) as [p [Hp [r ->]]].
    destruct (Promise_all_fails _ _ Hp) as [r' Hr'].
    exists r'. now rewrite Hr'.
  - intros v H. injection H as H.
    destruct (Promise_all_resolved _ H) as [vs [-> Hvs]].
    exists vs. split; [reflexivity|].
    apply (f_equal (@List.length _)) in Hvs.
    rewrite answers_length, !length_map in Hvs. now symmetry.
Qed.

(** X4. An option value made of commas and white space only resolves to no
    target outside strict mode: the core task then calls nothing and
    resolves with an empty array, the manifest task writes the manifest of
    ['server'] alone, and the config task (strict) falls back to ['client']
    and ['server']. *)
Theorem X4_blank_option (cli : Cli) (cfg : Cfg) (h : trace) (t : string)
    (Ht : option_ cli "target" = Some t) (Hne : t <> "")
    (Hblank : trimmed_entries t = []) :
  TASKS_build_core world cli cfg h = ([], Returned (Resolved (Array [])))
  /\ calls (fst (TASKS_build_manifest world cli cfg h))
     = [writeManifest "server"]
  /\ calls (fst (TASKS_build_config world cli cfg h))
     = [writeConfiguration "client"; writeConfiguration "server"].
Proof.
  assert (Hloose : _getTargets cli ["dist"; "dist-dev"] false = []).
  { rewrite (getTargets_given cli _ false Ht Hne). cbn zeta.
    now rewrite Hblank. }
  assert (Hstrict : _getTargets cli ["client"; "server"] true
                    = ["client"; "server"]).
  { rewrite (getTargets_given cli _ true Ht Hne). cbn zeta.
    now rewrite Hblank. }
  unfold TASKS_build_core, TASKS_build_manifest, TASKS_build_config.
  rewrite Hloose, Hstrict, !all_of_run. repeat split.
Qed.

(** X5. The config task writes the configuration of ['client'] or of
    ['server'] and of nothing else, and of at least one of them, whatever
    the [target] option holds. *)
Theorem X5_config_targets (cli : Cli) (cfg : Cfg) (h : trace) :
  Forall (fun c => c = writeConfiguration "client"
                   \/ c = writeConfiguration "server")
         (calls (fst (TASKS_build_config world cli cfg h)))
  /\ calls (fst (TASKS_build_config world cli cfg h)) <> [].
Proof.
  unfold TASKS_build_config. rewrite all_of_run. cbn [fst].
  rewrite calls_map_Call. split.
  - apply Forall_forall. intros c Hc. apply in_map_iff in Hc.
    destruct Hc as [t [<- Ht]]. apply getTargets_strict_member in Ht.
    destruct Ht as [<-|[<-|[]]]; [now left | now right].
  - pose proof (@getTargets_strict_not_nil cli ["client"; "server"]
                  ltac:(discriminate)) as Hne.
    destruct (_getTargets cli ["client"; "server"] true);
      [congruence | discriminate].
Qed.

End BuildTasks.

Section ThemeAndPackages.

Variables (Cfg Val Err Ext : Type).
Variable world : World Cfg Val Err Ext.

Notation trace := (list (event Val Ext)).

Lemma theme_selected_In (targets : list (option string * (string -> call)))
    (c : call) :
  In c (theme_selected targets)
  <-> exists v make, In (Some v, make) targets /\ v <> "" /\ c = make v.
Proof.
  unfold theme_selected. rewrite in_flat_map. split.
  - intros [[o make] [Hin Hc]]. cbn [fst snd] in Hc.
    destruct o as [v|]; [|destruct Hc].
    destruct (JS.truthy_string v) eqn:Hv; [|destruct Hc].
    destruct Hc as [<-|[]]. exists v, make.
    split; [assumption|]. split; [now apply truthy_string_true | reflexivity].
  - intros [v [make [Hin [Hv ->]]]]. exists (Some v, make).
    split; [assumption|]. cbn [fst snd].
    apply truthy_string_true in Hv. rewrite Hv. now left.
Qed.

Lemma theme_selected_length (targets : list (option string * (string -> call))) :
  List.length (theme_selected targets) <= List.length targets.
Proof.
  induction targets as [|[o make] l IH]; [reflexivity|].
  unfold theme_selected in *. cbn [flat_map fst snd].
  rewrite length_app. destruct o as [v|]; [destruct (JS.truthy_string v)|];
    cbn [List.length]; lia.
Qed.

(** X6. The theme task calls one builder for each of the options [style],
    [icons], [static] and [fonts] that holds a non-empty value, with that
    value, and no other; with none of the four it calls nothing and
    resolves with an empty array. *)
Theorem X6_theme_builders (cli : Cli) (cfg : Cfg) (h : trace) :
  (forall c, In c (calls (fst (TASKS_build_theme world cli cfg h)))
     <-> exists v, v <> ""
           /\ ((option_ cli "style" = Some v /\ c = buildStyle v)
               \/ (option_ cli "icons" = Some v /\ c = buildIcon v)
               \/ (option_ cli "static" = Some v /\ c = buildStatic v)
               \/ (option_ cli "fonts" = Some v /\ c = buildFonts v)))
  /\ List.length (calls (fst (TASKS_build_theme world cli cfg h))) <= 4
  /\ (JS.truthy (option_ cli "style") = false ->
      JS.truthy (option_ cli "icons") = false ->
      JS.truthy (option_ cli "static") = false ->
      JS.truthy (option_ cli "fonts") = false ->
      TASKS_build_theme world cli cfg h
      = ([], Returned (Resolved (Array [])))).
Proof.
  unfold TASKS_build_theme. rewrite all_of_run. cbn [fst].
  rewrite calls_map_Call. split; [|split].
  - intros c. rewrite theme_selected_In. split.
    + intros [v [make [Hin [Hv ->]]]]. exists v. split; [assumption|].
      cbn [In] in Hin.
      destruct Hin as [H|[H|[H|[H|[]]]]]; injection H as H <-; tauto.
    + intros [v [Hv H]].
      destruct H as [[H ->]|[[H ->]|[[H ->]|[H ->]]]]; rewrite H.
      * exists v, buildStyle. cbn [In]. tauto.
      * exists v, buildIcon. cbn [In]. tauto.
      * exists v, buildStatic. cbn [In]. tauto.
      * exists v, buildFonts. cbn [In]. tauto.
  - apply (theme_selected_length
             [(option_ cli "style", buildStyle);
              (option_ cli "icons", buildIcon);
              (option_ cli "static", buildStatic);
              (option_ cli "fonts", buildFonts)]).
  - intros H1 H2 H3 H4.
    assert (Hnone : forall o make, JS.truthy o = false ->
              theme_selected [(o, make)] = []).
    { intros [v|] make H; cbn in *; [now rewrite H | reflexivity]. }
    unfold theme_selected. cbn [flat_map fst snd].
    pose proof (Hnone _ buildStyle H1) as E1.
    pose proof (Hnone _ buildIcon H2) as E2.
    pose proof (Hnone _ buildStatic H3) as E3.
    pose proof (Hnone _ buildFonts H4) as E4.
    unfold theme_selected in E1, E2, E3, E4.
    cbn [flat_map fst snd] in E1, E2, E3, E4.
    rewrite app_nil_r in E1, E2, E3, E4.
    rewrite E1, E2, E3, E4. reflexivity.
Qed.

Lemma delegate_run (cli : Cli) (cfg : Cfg) (c : call) (h : trace) :
  delegate world cli cfg c h
  = ([Call c], Returned (collaborator world cli cfg c h)).
Proof. reflexivity. Qed.

Lemma eachp_from_delegate (cli : Cli) (cfg : Cfg) (acc : list (value Val))
    (c : call) (rest : list (M Val Ext (effect Val Ext) (completion Err (value Val))))
    (h : trace) :
  eachp_from acc (delegate world cli cfg c :: rest) h
  = match collaborator world cli cfg c h with
    | Resolved v =>
        let (t, out) := eachp_from (v :: acc) rest (h ++ [Task (Call c)]) in
        (Call c :: t, out)
    | Rejected r => ([Call c], Rejected r)
    | Pending => ([Call c], Pending)
    end.
Proof.
  cbn [eachp_from]. unfold bind. rewrite delegate_run.
  destruct (collaborator world cli cfg c h) as [v|r|]; reflexivity.
Qed.

Lemma eachp_delegates (cli : Cli) (cfg : Cfg) (l : list call) :
  forall (acc : list (value Val)) (h : trace),
    exists n,
      fst (eachp_from acc (map (delegate world cli cfg) l) h)
      = map Call (firstn n l)
      /\ (forall v,
            snd (eachp_from acc (map (delegate world cli cfg) l) h)
            = Resolved v -> n = List.length l).
Proof.
  induction l as [|c l IH]; intros acc h.
  - exists 0. split; reflexivity.
  - cbn [map]. rewrite eachp_from_delegate.
    destruct (collaborator world cli cfg c h) as [v|r|].
    + destruct (IH (v :: acc) (h ++ [Task (Call c)])) as [n [Hn Hall]].
      destruct (eachp_from (v :: acc) _ (h ++ [Task (Call c)])) as [t out].
      exists (S n). cbn [fst snd] in *. split.
      * cbn [firstn map]. now rewrite Hn.
      * intros w Hw. simpl. f_equal. exact (Hall w Hw).
    + exists 1. cbn. split; [reflexivity | discriminate].
    + exists 1. cbn. split; [reflexivity | discriminate].
Qed.

(** X7. With [_utils.eachp] as the specification describes it, the
    packages task builds the resolved targets one after the other: the
    builds it starts are the first ones of the list, a first target whose
    build is rejected is the only one started and its failure is the
    failure of the task, and the task resolves only after it has started
    every target. *)
Theorem X7_packages_one_at_a_time (cli : Cli) (cfg : Cfg) (h : trace) :
  let targets := _getTargets cli ["dist"; "dist-dev"] false in
  (exists n, calls (fst (TASKS_build_packages world cli cfg h))
             = firstn n (map buildPackages targets))
  /\ (forall t rest r,
        targets = t :: rest ->
        collaborator world cli cfg (buildPackages t) h = Rejected r ->
        TASKS_build_packages world cli cfg h
        = ([Call (buildPackages t)], Returned (Rejected r)))
  /\ (forall v,
        snd (TASKS_build_packages world cli cfg h) = Returned (Resolved v) ->
        calls (fst (TASKS_build_packages world cli cfg h))
        = map buildPackages targets).
Proof.
  intros targets. unfold TASKS_build_packages. fold targets.
  rewrite <- (map_map buildPackages (delegate world cli cfg)).
  unfold eachp, bind.
  destruct (eachp_delegates cli cfg (map buildPackages targets) [] h)
    as [n [Hn Hall]].
  split; [|split].
  - exists n.
    destruct (eachp_from [] _ h) as [t out]. cbn [fst snd ret] in *.
    rewrite app_nil_r, Hn. apply calls_map_Call.
  - intros t rest r Ht Hr. rewrite Ht. cbn [map].
    rewrite eachp_from_delegate, Hr. reflexivity.
  - destruct (eachp_from [] _ h) as [t out]. cbn [fst snd ret] in *.
    intros v Hv. injection Hv as ->. rewrite app_nil_r, Hn.
    rewrite (Hall v eq_refl), firstn_all. apply calls_map_Call.
Qed.

End ThemeAndPackages.

(** ** Names of tasks and actions *)

Lemma task_name_kebab (k : string) :
  JS.includes_char "-"%char k = false -> task_name (kebab k) = k.
Proof.
  unfold task_name, kebab. induction k as [|x r IH]; [reflexivity|].
  cbn [JS.includes_char JS.replace_first]. intros H.
  apply orb_false_iff in H. destruct H as [Hx Hr].
  destruct (Ascii.eqb x "_") eqn:E.
  - apply Ascii.eqb_eq in E. subst x. reflexivity.
  - cbn [JS.replace_first]. rewrite Hx, (IH Hr). reflexivity.
Qed.

Lemma count_char_none (c : ascii) (s : string) :
  count_char c s = 0 <-> JS.includes_char c s = false.
Proof.
  induction s as [|x r IH]; [split; reflexivity|].
  cbn [count_char JS.includes_char]. destruct (Ascii.eqb x c); cbn.
  - split; discriminate.
  - exact IH.
Qed.

Lemma task_name_count (s : string) :
  count_char "-" (task_name s) = pred (count_char "-" s).
Proof.
  unfold task_name. induction s as [|x r IH]; [reflexivity|].
  cbn [JS.replace_first count_char]. destruct (Ascii.eqb x "-") eqn:E.
  - cbn [count_char]. reflexivity.
  - cbn [count_char]. now rewrite E.
Qed.

Lemma task_name_length (s : string) :
  String.length (task_name s) = String.length s.
Proof.
  unfold task_name. induction s as [|x r IH]; [reflexivity|].
  cbn [JS.replace_first]. destruct (Ascii.eqb x "-"); cbn; congruence.
Qed.

Lemma get_In (A : Type) (o : Obj.t A) (k : string) (v : A) :
  Obj.get o k = Some v -> In (k, v) o.
Proof.
  induction o as [|[k' v'] o IH]; [discriminate|].
  cbn [Obj.get]. destruct (String.eqb k' k) eqn:E.
  - apply String.eqb_eq in E. subst k'. intros H. injection H as ->. now left.
  - intros H. right. now apply IH.
Qed.

Lemma get_key (A : Type) (o : Obj.t A) (k : string) (v : A) :
  Obj.get o k = Some v -> In k (Obj.keys o).
Proof.
  intros H. apply get_In in H. unfold Obj.keys.
  apply in_map_iff. now exists (k, v).
Qed.

Section Actions.

Variables (Cfg Val Err Ext : Type).
Variable world : World Cfg Val Err Ext.

Notation trace := (list (event Val Ext)).

Lemma config_actions_delegate :
  Forall (fun kv => exists make : Cli -> call,
              snd kv = fun cli cfg => delegate world cli cfg (make cli))
         (TASKS_config world).
Proof. unfold TASKS_config. repeat constructor; eexists; reflexivity. Qed.

(** X8. Every action of the static [config] table makes one call to
    [_config] and returns its promise, so that the [config] entry point,
    once the configuration is loaded, makes exactly that call, logs the
    value it resolves with unless it is [undefined], and settles as the
    call does. *)
Theorem X8_config_action (cli : Cli) (arg : option string)
    (handler : Handler Cfg Val Err Ext) (h : trace) (cfg : Cfg)
    (Hget : Obj.get (TASKS_config world)
              (task_name (match arg with Some s => s | None => "" end))
            = Some handler)
    (Hcfg : getConfiguration world h = Returned (Resolved cfg)) :
  exists c,
    exports_config world (TASKS world) cli arg h
    = (GetConfiguration :: Task (Call c) ::
         match collaborator world cli cfg c (h ++ [GetConfiguration]) with
         | Resolved Undefined => []
         | Resolved v => [LogResult v]
         | _ => []
         end,
       match collaborator world cli cfg c (h ++ [GetConfiguration]) with
       | Resolved _ => Resolved Undefined
       | Rejected r => Rejected r
       | Pending => Pending
       end).
Proof.
  pose proof config_actions_delegate as Hall.
  rewrite Forall_forall in Hall.
  destruct (Hall _ (get_In _ _ Hget)) as [make Hmake]. cbn [snd] in Hmake.
  exists (make cli). unfold exports_config. cbn [tasks_config TASKS].
  change (JS.replace_first "-" "_" (match arg with Some a => a | None => "" end))
    with (task_name (match arg with Some s => s | None => "" end)).
  rewrite Hget, Hmake. unfold bind, load_configuration, lift.
  rewrite Hcfg. cbn [inject Inject_event]. rewrite delegate_run.
  destruct (collaborator world cli cfg (make cli) (h ++ [GetConfiguration]))
    as [v|r|]; try reflexivity.
  destruct v; reflexivity.
Qed.

(** X9. A name without hyphen is reached by its spelling with the first
    underscore written as a hyphen: the normalisation gives the name back,
    so the [config] entry point and the chain runner treat both spellings
    alike; this covers every key of the static tables, none of which holds
    a hyphen. *)
Theorem X9_kebab_spelling (k : string)
    (Hk : JS.includes_char "-"%char k = false) :
  task_name (kebab k) = k
  /\ (forall T cli h,
        exports_config world T cli (Some (kebab k)) h
        = exports_config world T cli (Some k) h)
  /\ (forall cli (cfg : Cfg) taskName (namespace : Namespace Cfg Val Err Ext) h,
        task_step cli cfg taskName namespace (kebab k) h
        = task_step cli cfg taskName namespace k h)
  /\ Forall (fun key => JS.includes_char "-"%char key = false)
            (Obj.keys (TASKS_build world) ++ Obj.keys (TASKS_config world)).
Proof.
  pose proof (task_name_kebab k Hk) as Hkebab.
  pose proof (task_name_no_hyphen k Hk) as Hsame.
  split; [exact Hkebab|]. split; [|split].
  - intros T cli h. unfold exports_config.
    change (JS.replace_first "-" "_" (kebab k)) with (task_name (kebab k)).
    change (JS.replace_first "-" "_" k) with (task_name k).
    now rewrite Hkebab, Hsame.
  - intros cli cfg taskName namespace h. unfold task_step.
    now rewrite Hkebab, Hsame.
  - repeat constructor.
Qed.

(** X10. The normalisation changes one character at most: an entry with
    two hyphens or more keeps a hyphen, so it matches no key of a table
    whose keys hold none, and the [config] entry point rejects it as an
    invalid action without loading the configuration. *)
Theorem X10_second_hyphen_stays (s : string)
    (Hs : 2 <= count_char "-" s) :
  String.length (task_name s) = String.length s
  /\ count_char "-" (task_name s) = pred (count_char "-" s)
  /\ JS.includes_char "-"%char (task_name s) = true
  /\ (forall (o : Obj.t (Handler Cfg Val Err Ext)),
        Forall (fun key => JS.includes_char "-"%char key = false) (Obj.keys o) ->
        Obj.get o (task_name s) = None)
  /\ (forall cli h,
        exports_config world (TASKS world) cli (Some s) h
        = ([], Rejected (Message ("Invalid action: " ++ task_name s)))).
Proof.
  assert (Hin : JS.includes_char "-"%char (task_name s) = true).
  { destruct (JS.includes_char "-"%char (task_name s)) eqn:E; [reflexivity|].
    apply count_char_none in E. rewrite task_name_count in E. lia. }
  assert (Hnone : forall (o : Obj.t (Handler Cfg Val Err Ext)),
            Forall (fun key => JS.includes_char "-"%char key = false)
                   (Obj.keys o) ->
            Obj.get o (task_name s) = None).
  { intros o Hkeys. destruct (Obj.get o (task_name s)) as [v|] eqn:E;
      [|reflexivity].
    apply get_key in E. rewrite Forall_forall in Hkeys.
    rewrite (Hkeys _ E) in Hin. discriminate. }
  split; [apply task_name_length|].
  split; [apply task_name_count|].
  split; [exact Hin|]. split; [exact Hnone|].
  intros cli h. unfold exports_config. cbn [tasks_config TASKS].
  change (JS.replace_first "-" "_" s) with (task_name s).
  rewrite Hnone; [reflexivity|]. repeat constructor.
Qed.

(** X11. A generator that is registered has its result written to the file
    of the [out] option when that option is not empty, and logged
    otherwise, never both; when the generator fails nothing is written or
    logged and its failure is the failure of the task; the task itself
    never throws, also when the generator does. *)
Theorem X11_generate_output (cli : Cli) (cfg : Cfg) (task : string)
    (g : Handler Cfg Val Err Ext) (h : trace)
    (Hg : _generate world task = Some g) :
  let tg := fst (g cli cfg h) in
  let c := snd (g cli cfg h) in
  let t := fst (TASKS_generate world cli cfg task h) in
  (exists p, snd (TASKS_generate world cli cfg task h) = Returned p)
  /\ (forall r, failure_of c = Some r ->
        TASKS_generate world cli cfg task h = (tg, Returned (Rejected r)))
  /\ (c = Returned Pending ->
        TASKS_generate world cli cfg task h = (tg, Returned Pending))
  /\ (forall arg, c = Returned (Resolved arg) ->
        (forall out, option_ cli "out" = Some out -> out <> "" ->
           t = tg ++ [WriteFileSync out (String_ world arg)])
        /\ (JS.truthy (option_ cli "out") = false ->
            TASKS_generate world cli cfg task h
            = (tg ++ [LoggerLog arg], Returned (Resolved Undefined)))).
Proof.
  unfold TASKS_generate. rewrite Hg. unfold bind.
  destruct (g cli cfg h) as [tg c]. cbn [fst snd].
  destruct c as [[arg|r|]|r].
  - split.
    { destruct (option_ cli "out") as [o|]; [destruct (JS.truthy_string o)|];
        cbn; try (eexists; reflexivity).
      destruct (writeFileSync world o (String_ world arg) _);
        eexists; reflexivity. }
    split; [discriminate|]. split; [discriminate|].
    intros arg' H. injection H as <-. split.
    + intros out Hout Hne. rewrite Hout.
      apply truthy_string_true in Hne. rewrite Hne. reflexivity.
    + intros Hnone. destruct (option_ cli "out") as [o|]; cbn in Hnone.
      * rewrite Hnone. reflexivity.
      * reflexivity.
  - cbn. rewrite app_nil_r. split; [eexists; reflexivity|].
    split; [intros r' H; now injection H as <-|].
    split; [discriminate|]. intros arg H. discriminate.
  - cbn. rewrite app_nil_r. split; [eexists; reflexivity|].
    split; [discriminate|]. split; [reflexivity|]. intros arg H. discriminate.
  - cbn. rewrite app_nil_r. split; [eexists; reflexivity|].
    split; [intros r' H; now injection H as <-|].
    split; [discriminate|]. intros arg H. discriminate.
Qed.

End Actions.

(** ** Plugins and the default stages *)





Section Plugins.

Variables (Cfg Val Err Ext : Type).
Variable world : World Cfg Val Err Ext.

Notation canonical := ["config"; "core"; "themes"; "manifest"; "packages"].

Notation added := (added_stage world).

Lemma default_stages_filter (T : Tasks Cfg Val Err Ext) :
  default_stages world T = canonical ++ filter added (Obj.keys (tasks_build T)).
Proof. reflexivity. Qed.

Lemma added_not_original (i : string) :
  added i = true -> ~ In i (ORIGINAL_TASKS_build world).
Proof.
  unfold added_stage. intros H. apply andb_true_iff in H. destruct H as [H _].
  apply negb_true_iff in H. now apply includes_not_In.
Qed.


(** X12. Whatever the plugins registered, the default stages start with
    the five canonical ones, hold no stage twice, and never hold [theme] or
    [package]; when the plugins only replaced tasks of the static table
    the default stages are the canonical ones. *)
Theorem X12_default_stages_invariants (T : Tasks Cfg Val Err Ext)
    (Hwf : Obj.wf (tasks_build T)) :
  firstn 5 (default_stages world T) = canonical
  /\ NoDup (default_stages world T)
  /\ ~ In "theme" (default_stages world T)
  /\ ~ In "package" (default_stages world T)
  /\ (Forall (fun k => In k (ORIGINAL_TASKS_build world))
             (Obj.keys (tasks_build T)) ->
      default_stages world T = canonical).
Proof.
  rewrite default_stages_filter.
  assert (Hextra : forall x, In x (filter added (Obj.keys (tasks_build T))) ->
                             ~ In x (ORIGINAL_TASKS_build world)).
  { intros x Hx. apply filter_In in Hx. now apply added_not_original. }
  split; [reflexivity|]. split; [|split; [|split]].
  - apply NoDup_app.
    + distinct.
    + now apply NoDup_filter.
    + intros a Ha Hin. apply (Hextra a Hin). cbn in Ha |- *. tauto.
  - intros Hin. apply in_app_or in Hin. destruct Hin as [Hin|Hin].
    + cbn in Hin. intuition discriminate.
    + apply (Hextra _ Hin). cbn. tauto.
  - intros Hin. apply in_app_or in Hin. destruct Hin as [Hin|Hin].
    + cbn in Hin. intuition discriminate.
    + apply (Hextra _ Hin). cbn. tauto.
  - intros Hall.
    assert (Hnil : filter added (Obj.keys (tasks_build T)) = []).
    { destruct (filter added (Obj.keys (tasks_build T))) as [|x l] eqn:E;
        [reflexivity|].
      exfalso. apply (Hextra x); [now left|].
      rewrite Forall_forall in Hall. apply Hall.
      assert (Hx : In x (filter added (Obj.keys (tasks_build T))))
        by (rewrite E; now left).
      now apply filter_In in Hx. }
    now rewrite Hnil.
Qed.




End Plugins.

(** ** The [run] entry point *)

Section RunProperties.

Variable Err : Type.

(** X15. [run] returns a promise that never settles.  It initialises the
    server with the [target] option as [DIST], or ['dist-dev'] when the
    option is absent or empty; the process exits, with status 1 and after
    logging the failure, exactly when the initialisation is rejected or
    [settings.get] or [instance.run] throws; the server is run at most
    once, and only after it is initialised and the settings are read. *)
Theorem X15_run_startup (server : Server Err) (cli : Cli) :
  exists opts rest,
    exports_run server cli = (InstanceInit opts :: rest, Pending)
    /\ PORT opts = option_ cli "port"
    /\ LOGLEVEL opts = option_ cli "loglevel"
    /\ (JS.truthy (option_ cli "target") = false -> DIST opts = "dist-dev")
    /\ (forall t, option_ cli "target" = Some t -> t <> "" -> DIST opts = t)
    /\ (In (ProcessExit 1) rest <->
        (exists r, instance_init server opts = Rejected r)
        \/ ((exists u, instance_init server opts = Resolved u)
            /\ ((exists r, settings_get server = inl r)
                \/ (exists r, instance_run server = Some r))))
    /\ (forall code, In (ProcessExit code) rest ->
          code = 1
          /\ exists r pre, rest = pre ++ [LoggerError r; ProcessExit 1])
    /\ (In InstanceRun rest <->
        (exists u, instance_init server opts = Resolved u)
        /\ (exists tz, settings_get server = inr tz))
    /\ List.length (filter (@is_InstanceRun Err) rest) <= 1.
Proof.
  unfold exports_run.
  set (opts := mkOptions (option_ cli "port") (option_ cli "loglevel") _).
  exists opts. eexists. split; [reflexivity|].
  split; [reflexivity|]. split; [reflexivity|].
  split.
  { intros H. unfold opts. cbn [DIST].
    destruct (option_ cli "target") as [t|]; cbn in H;
      [now rewrite H | reflexivity]. }
  split.
  { intros t Ht Hne. unfold opts. cbn [DIST]. rewrite Ht.
    apply truthy_string_true in Hne. now rewrite Hne. }
  clearbody opts. unfold startup, startup_failed.
  destruct (instance_init server opts) as [u|r|];
    [destruct (settings_get server) as [r|[z|]];
     [| destruct (JS.truthy_string z) | ];
     try (destruct (instance_run server) as [r|]) | | ];
    cbn; (split; [| split; [| split]]).
  all: try lia.
  all: try (split; intros;
            repeat match goal with
                   | H : _ \/ _ |- _ => destruct H
                   | H : _ /\ _ |- _ => destruct H
                   | H : exists _, _ |- _ => destruct H
                   | H : False |- _ => destruct H
                   end;
            try discriminate; eauto 8; fail).
  all: intros code H;
    repeat match goal with
           | H : _ \/ _ |- _ => destruct H
           | H : False |- _ => destruct H
           end;
    try discriminate;
    (split; [congruence|]).
  - exists r, [SettingsGet]. reflexivity.
  - exists r, [SettingsGet; SetTZ z; OnExit; InstanceRun]. reflexivity.
  - exists r, [SettingsGet; OnExit; InstanceRun]. reflexivity.
  - exists r, [SettingsGet; OnExit; InstanceRun]. reflexivity.
  - exists r, []. reflexivity.
Qed.

End RunProperties.

(** ** Concrete runs of the further properties *)

Lemma X2_targets_are_clean_witness :
  _getTargets (cli_of [("target", " a , ,b")]) ["dist"; "dist-dev"] false
  = ["a"; "b"].
Proof.
  destruct (@X2_targets_are_clean (cli_of [("target", " a , ,b")])
              ["dist"; "dist-dev"] " a , ,b" eq_refl ltac:(discriminate))
    as [H _].
  exact H.
Defined.

Lemma X4_blank_option_witness :
  TASKS_build_core calm_world (cli_of [("target", ", ,")]) tt []
  = ([], Returned (Resolved (Array [])))
  /\ calls (fst (TASKS_build_manifest calm_world
                   (cli_of [("target", ", ,")]) tt []))
     = [writeManifest "server"].
Proof.
  destruct (@X4_blank_option unit unit string Empty_set calm_world
              (cli_of [("target", ", ,")]) tt [] ", ," eq_refl
              ltac:(discriminate) eq_refl) as [Hcore [Hmanifest _]].
  split; assumption.
Defined.

Lemma X8_config_action_witness :
  exists c,
    exports_config calm_world (TASKS calm_world) (cli_of [])
      (Some "list-packages") []
    = ([GetConfiguration; Task (Call c)], Resolved Undefined).
Proof.
  destruct (@X8_config_action unit unit string Empty_set calm_world
              (cli_of []) (Some "list-packages") _ [] tt eq_refl eq_refl)
    as [c Hc].
  exists c. exact Hc.
Defined.

Lemma X9_kebab_spelling_witness :
  task_name (kebab "add_mount") = "add_mount"
  /\ exports_config calm_world (TASKS calm_world) (cli_of [])
       (Some (kebab "add_mount")) []
     = exports_config calm_world (TASKS calm_world) (cli_of [])
         (Some "add_mount") [].
Proof.
  destruct (@X9_kebab_spelling unit unit string Empty_set calm_world
              "add_mount" eq_refl) as [Hname [Hconfig _]].
  split; [exact Hname | apply Hconfig].
Defined.

Lemma X10_second_hyphen_stays_witness :
  exports_config calm_world (TASKS calm_world) (cli_of [])
    (Some "list-all-packages") []
  = ([], Rejected (Message "Invalid action: list_all-packages")).
Proof.
  apply (@X10_second_hyphen_stays unit unit string Empty_set calm_world
           "list-all-packages").
  vm_compute. lia.
Defined.

Lemma X11_generate_output_witness :
  TASKS_generate report_world (cli_of []) tt "report" []
  = ([LoggerLog (Opaque tt)], Returned (Resolved Undefined))
  /\ fst (TASKS_generate report_world (cli_of [("out", "report.txt")]) tt
            "report" [])
     = [WriteFileSync "report.txt" "report text"].
Proof.
  split.
  - destruct (@X11_generate_output unit unit string Empty_set report_world
                (cli_of []) tt "report" _ [] eq_refl)
      as [_ [_ [_ H]]].
    destruct (H (Opaque tt) eq_refl) as [_ Hlog]. apply Hlog. reflexivity.
  - destruct (@X11_generate_output unit unit string Empty_set report_world
                (cli_of [("out", "report.txt")]) tt "report" _ [] eq_refl)
      as [_ [_ [_ H]]].
    destruct (H (Opaque tt) eq_refl) as [Hwrite _].
    apply (Hwrite "report.txt" eq_refl). discriminate.
Defined.

Lemma X12_default_stages_invariants_witness :
  NoDup (default_stages calm_world (lint_module (TASKS calm_world)))
  /\ ~ In "package" (default_stages calm_world (lint_module (TASKS calm_world))).
Proof.
  destruct (@X12_default_stages_invariants unit unit string Empty_set
              calm_world (lint_module (TASKS calm_world)))
    as [_ [Hnodup [_ [Hpackage _]]]].
  - vm_compute. distinct.
  - split; assumption.
Defined.



(** The packages task stops at the first target that fails, the core task
    does not. *)
Example packages_stop_core_goes_on :
  TASKS_build_packages packages_fail_world (cli_of []) tt []
  = ([Call (buildPackages "dist")], Returned (Rejected (Failure "no packages")))
  /\ TASKS_build_core core_fails_world (cli_of []) tt []
     = ([Call (buildFiles "dist"); Call (buildFiles "dist-dev")],
        Returned (Rejected (Failure "core failed"))).
Proof. split; reflexivity. Qed.

Example run_broken_server :
  exports_run broken_server (cli_of [])
  = ([InstanceInit (mkOptions None None "dist-dev");
      LoggerError (Failure "EADDRINUSE"); ProcessExit 1], Pending).
Proof. reflexivity. Qed.

Example run_good_server :
  exports_run good_server (cli_of [("target", "dist"); ("port", "8000")])
  = ([InstanceInit (mkOptions (Some "8000") None "dist");
      SettingsGet; SetTZ "UTC"; OnExit; InstanceRun; OnUncaughtException],
     Pending).
Proof. reflexivity. Qed.
